(** * Verification of the video-relay bot (enhanced_video_bot.py)

    A shallow embedding of the URL classifier, the acquisition strategy
    chain, the transfer preparer (file splitting) and the workspace
    clean-up of [EnhancedVideoDownloader], with the properties of the
    design document stated and settled against that embedding. *)

From Stdlib Require Import List String Ascii Bool Arith ZArith NArith Lia.
From Stdlib Require Import Strings.Byte.
From Stdlib Require Import DecimalString DecimalN DecimalZ.
From Equations Require Import Equations.
Import ListNotations.
Open Scope string_scope.

(** ** Python strings *)

Module PyStr.

(** [needle in hay] on Python strings: substring test. *)
Fixpoint contains (needle hay : string) : bool :=
  if String.prefix needle hay then true
  else match hay with
       | EmptyString => false
       | String _ hay' => contains needle hay'
       end.

(** [s.endswith(suffix)] *)
Definition endswith (s suffix : string) : bool :=
  let n := String.length s in
  let m := String.length suffix in
  (m <=? n)%nat && String.eqb (substring (n - m) m s) suffix.

(** [s.startswith(p)] *)
Definition startswith (s p : string) : bool := String.prefix p s.

(** [c.lower()] / [c.upper()] on the ASCII range.  A string is the
    sequence of its bytes: the bytes of other code points are left alone,
    which is not what Python does with all of them, so what is proved
    through [lower] and [upper] about the program is stated for ASCII
    text. *)
Definition lower_char (c : ascii) : ascii :=
  let n := nat_of_ascii c in
  if ((65 <=? n) && (n <=? 90))%nat then ascii_of_nat (n + 32) else c.


Fixpoint map_chars (f : ascii -> ascii) (s : string) : string :=
  match s with
  | EmptyString => EmptyString
  | String c s' => String (f c) (map_chars f s')
  end.

Definition lower : string -> string := map_chars lower_char.

(** [s[:n]] and [s[n:]] for [0 <= n]. *)
Fixpoint take (n : nat) (s : string) : string :=
  match n, s with
  | S n', String c s' => String c (take n' s')
  | _, _ => EmptyString
  end.

Fixpoint drop (n : nat) (s : string) : string :=
  match n, s with
  | S n', String _ s' => drop n' s'
  | _, _ => s
  end.

Fixpoint all_chars (f : ascii -> bool) (s : string) : bool :=
  match s with
  | EmptyString => true
  | String c s' => f c && all_chars f s'
  end.

(** [s.lstrip(chars)], the characters to strip given as a test. *)
Fixpoint lstrip (f : ascii -> bool) (s : string) : string :=
  match s with
  | EmptyString => EmptyString
  | String c s' => if f c then lstrip f s' else s
  end.

(** [s.replace(c, "")] for every character [c] that passes the test. *)
Fixpoint remove_chars (f : ascii -> bool) (s : string) : string :=
  match s with
  | EmptyString => EmptyString
  | String c s' => if f c then remove_chars f s' else String c (remove_chars f s')
  end.

End PyStr.

(** ** urllib.parse: the network-location component

    [urlparse(url).netloc] as [urlsplit] computes it: leading C0 control
    characters and spaces are stripped and every TAB, CR and LF is removed;
    an optional scheme (a letter followed by scheme characters, up to the
    first colon) is removed; if what follows starts with two slashes, the
    network location runs up to the first of '/', '?' and '#'; otherwise it
    is empty.  [urlsplit] raises [ValueError] when the network location
    holds one square bracket without the other.

    Two checks of [urlsplit] are not modelled: the validation of a host
    between two brackets as an IP literal, which later versions of the
    library make, and the NFKC check of a network location that is not
    ASCII.  What is proved of a call that must return is therefore stated
    for URLs of printable ASCII characters without square brackets
    ([Spec.plain_url]), on which no version of [urlsplit] raises. *)

Module UrlParse.
Import PyStr.

Definition is_alpha (c : ascii) : bool :=
  let n := nat_of_ascii c in
  (((65 <=? n) && (n <=? 90)) || ((97 <=? n) && (n <=? 122)))%nat.

Definition is_digit (c : ascii) : bool :=
  let n := nat_of_ascii c in ((48 <=? n) && (n <=? 57))%nat.

(** [scheme_chars]: letters, digits, '+', '-', '.' *)
Definition is_scheme_char (c : ascii) : bool :=
  is_alpha c || is_digit c
  || Ascii.eqb c "+" || Ascii.eqb c "-" || Ascii.eqb c ".".

(** [i = url.find(':')], returning [url[:i]] and [url[i+1:]]. *)
Fixpoint split_colon (url : string) : option (string * string) :=
  match url with
  | EmptyString => None
  | String c rest =>
      if Ascii.eqb c ":" then Some (EmptyString, rest)
      else match split_colon rest with
           | Some (pre, post) => Some (String c pre, post)
           | None => None
           end
  end.

(** [_WHATWG_C0_CONTROL_OR_SPACE] and [_UNSAFE_URL_BYTES_TO_REMOVE] *)
Definition is_c0_or_space (c : ascii) : bool := (nat_of_ascii c <=? 32)%nat.

Definition is_unsafe (c : ascii) : bool :=
  Ascii.eqb c "009" || Ascii.eqb c "013" || Ascii.eqb c "010".

(** [url.lstrip(_WHATWG_C0_CONTROL_OR_SPACE)] followed by the removal of the
    unsafe bytes. *)
Definition clean (url : string) : string :=
  remove_chars is_unsafe (lstrip is_c0_or_space url).

Definition strip_scheme (url : string) : string :=
  match split_colon url with
  | Some (String c0 pre', rest) =>
      if is_alpha c0 && all_chars is_scheme_char (String c0 pre')
      then rest else url
  | _ => url
  end.

(** [_splitnetloc(url, 2)]: up to the first of "/?#". *)
Fixpoint until_delim (s : string) : string :=
  match s with
  | EmptyString => EmptyString
  | String c s' =>
      if Ascii.eqb c "/" || Ascii.eqb c "?" || Ascii.eqb c "#"
      then EmptyString
      else String c (until_delim s')
  end.

Definition netloc (url : string) : string :=
  let url := strip_scheme (clean url) in
  if startswith url "//" then until_delim (drop 2 url) else EmptyString.

(** Does [urlsplit(url)] raise [ValueError("Invalid IPv6 URL")]? *)
Definition urlsplit_raises (url : string) : bool :=
  let netloc := netloc url in
  (contains "[" netloc && negb (contains "]" netloc))
  || (contains "]" netloc && negb (contains "[" netloc)).

End UrlParse.

(** ** URL classifier *)

Inductive platform : Set :=
| youtube | instagram | tiktok | twitter | facebook
| vimeo | dailymotion | twitch | other.


Module Classifier.
Import PyStr UrlParse.

(** [EnhancedVideoDownloader.get_platform_type]: the tag it returns.  The
    method raises where [urlparse(url.lower())] does
    ([urlsplit_raises (lower url)]); the callers below make that call
    before they use the tag. *)
Definition get_platform_type (url : string) : platform :=
  let netloc := netloc (lower url) in
  if contains "youtube.com" netloc || contains "youtu.be" netloc then youtube
  else if contains "instagram.com" netloc then instagram
  else if contains "tiktok.com" netloc then tiktok
  else if contains "twitter.com" netloc then twitter
  else if contains "facebook.com" netloc then facebook
  else if contains "vimeo.com" netloc then vimeo
  else if contains "dailymotion.com" netloc then dailymotion
  else if contains "twitch.tv" netloc then twitch
  else other.

(** The [video_platforms] list local to [is_video_platform]. *)
Definition video_platforms : list string :=
  [ "youtube.com"; "youtu.be"; "vimeo.com"; "dailymotion.com";
    "twitch.tv"; "instagram.com"; "tiktok.com"; "twitter.com";
    "facebook.com"; "reddit.com"; "pinterest.com"; "snapchat.com";
    "linkedin.com"; "tumblr.com"; "discord.com" ].

(** [EnhancedVideoDownloader.is_video_platform]: the value it returns; it
    raises where [get_platform_type] does. *)
Definition is_video_platform (url : string) : bool :=
  let netloc := netloc (lower url) in
  existsb (fun platform => contains platform netloc) video_platforms.

(** The platform table of the design document: host substring and tag, in
    the order in which [get_platform_type] tests them. *)
Definition platform_table : list (string * platform) :=
  [ ("youtube.com", youtube); ("youtu.be", youtube);
    ("instagram.com", instagram); ("tiktok.com", tiktok);
    ("twitter.com", twitter); ("facebook.com", facebook);
    ("vimeo.com", vimeo); ("dailymotion.com", dailymotion);
    ("twitch.tv", twitch) ].

(** First-match lookup of a host in a table. *)
Definition first_match (table : list (string * platform)) (host : string)
  : platform :=
  match find (fun e => contains (fst e) host) table with
  | Some e => snd e
  | None => other
  end.


End Classifier.

Import PyStr UrlParse Classifier.

(** ** Paths (posixpath) and number formatting *)

Module PyPath.
Import PyStr.

(** [s.rfind(c)]: index of the last occurrence, or -1. *)
Fixpoint rfind_from (c : ascii) (s : string) (i acc : Z) : Z :=
  match s with
  | EmptyString => acc
  | String a s' => rfind_from c s' (i + 1) (if Ascii.eqb a c then i else acc)
  end.

Definition rfind (c : ascii) (s : string) : Z := rfind_from c s 0 (-1).

(** [os.path.splitext] ([genericpath._splitext] with sep '/', no altsep,
    extsep '.'): the extension starts at the last dot of the last path
    component, unless that component consists of leading dots only up to
    there. *)
Definition splitext (p : string) : string * string :=
  let sepIndex := rfind "/" p in
  let dotIndex := rfind "." p in
  if (sepIndex <? dotIndex)%Z then
    let filenameIndex := Z.to_nat (sepIndex + 1) in
    let between := take (Z.to_nat dotIndex - filenameIndex) (drop filenameIndex p) in
    if all_chars (Ascii.eqb ".") between then (p, EmptyString)
    else (take (Z.to_nat dotIndex) p, drop (Z.to_nat dotIndex) p)
  else (p, EmptyString).

(** [os.path.join(a, b)] *)
Definition join (a b : string) : string :=
  if startswith b "/" then b
  else if String.eqb a "" || endswith a "/" then a ++ b
  else a ++ "/" ++ b.

(** [os.path.basename(p)]: what follows the last slash. *)
Definition basename (p : string) : string :=
  drop (Z.to_nat (rfind "/" p + 1)) p.

(** Format spec [03d] on a non-negative integer: decimal digits,
    zero-padded to a width of at least three. *)
Definition pad3 (d : Decimal.uint) : Decimal.uint :=
  match Decimal.nb_digits d with
  | 0 => Decimal.D0 (Decimal.D0 (Decimal.D0 d))
  | 1 => Decimal.D0 (Decimal.D0 d)
  | 2 => Decimal.D0 d
  | _ => d
  end.

Definition format_03d (n : N) : string :=
  NilEmpty.string_of_uint (pad3 (N.to_uint n)).

(** [str(n)] for an integer. *)
Definition str_int (n : Z) : string := NilZero.string_of_int (Z.to_int n).

End PyPath.

Import PyPath.

(** ** The operating system as the program sees it *)

(** Exceptions (all of them subclasses of [Exception]). *)
Inductive exn : Type :=
| FileNotFoundError
| FileExistsError
| PermissionError
| NotADirectoryError
| TimeoutExpired
| RequestException
| ValueError (msg : string)
| OverflowError
| MemoryError
| Exception (msg : string).

Definition exn_str (e : exn) : string :=
  match e with
  | FileNotFoundError => "No such file or directory"
  | FileExistsError => "File exists"
  | PermissionError => "Permission denied"
  | NotADirectoryError => "Not a directory"
  | TimeoutExpired => "timed out"
  | RequestException => "request failed"
  | ValueError msg => msg
  | OverflowError => "Python int too large to convert to C ssize_t"
  | MemoryError => ""
  | Exception msg => msg
  end.

Inductive result (A : Type) : Type :=
| Ok (a : A)
| Raise (e : exn).
Arguments Ok {A} a.
Arguments Raise {A} e.

(** External downloader binaries and acquisition strategies. *)
Inductive tool : Set := YtDlp | YoutubeDl | Instaloader.

Inductive header_set : Set := EnhancedHeaders | MinimalHeaders.

Inductive strategy : Set :=
| ByTool (t : tool)
| DirectFetch (h : header_set).

(** One entry per strategy invocation, with the value it returned. *)
Inductive event : Type :=
| Attempt (s : strategy) (returned : option string).

(** Mutable state: regular files by path (in directory-listing order),
    existing directories, and the record of strategy invocations. *)
Record world : Type := mkWorld {
  files : list (string * list byte);
  dirs : list string;
  trace : list event
}.

(** What [subprocess.run] does. *)
Inductive completed : Type :=
| Returned (returncode : Z)
| TimedOut
| NotStarted.

Inductive header_value : Type :=
| Absent
| IntValue (n : Z)
| Malformed.

Inductive stream_end : Set := EndOfBody | ConnectionLost.

(** What [requests.get(..., stream=True)] does. *)
Inductive response : Type :=
| NoResponse
| Response (status : Z) (content_length : header_value)
           (chunks : list (list byte)) (ending : stream_end).

(** The collaborators outside the program: the paths that cannot be opened
    for writing or removed although their directory is there (write
    protection, a directory in the place of the file, and the like), the
    directory entries that name nothing ([os.listdir] gives their names,
    [os.path.exists] is false of them: symbolic links whose target is
    missing), the memory a read buffer may take, the clock, the downloader
    binaries and the HTTP peer. *)
Record env : Type := mkEnv {
  locked : list string;
  dangling : list string;
  memory : Z;
  now : Z;
  version_probe : tool -> completed;
  run_tool : tool -> string -> string -> completed;
  tool_output : tool -> string -> string -> list (string * list byte);
  http_get : header_set -> string -> response
}.

(** Computations with state and exceptions. *)
Definition M (A : Type) : Type := world -> world * result A.

Definition ret {A} (a : A) : M A := fun w => (w, Ok a).

Definition raise {A} (e : exn) : M A := fun w => (w, Raise e).

Definition bind {A B} (c : M A) (k : A -> M B) : M B :=
  fun w => match c w with
           | (w', Ok a) => k a w'
           | (w', Raise e) => (w', Raise e)
           end.

(** [try: c  except Exception as e: h e] *)
Definition try_except {A} (c : M A) (h : exn -> M A) : M A :=
  fun w => match c w with
           | (w', Ok a) => (w', Ok a)
           | (w', Raise e) => h e w'
           end.

Notation "x <- c1 ;; c2" := (bind c1 (fun x => c2))
  (at level 61, c1 at next level, right associativity).
Notation "c1 ;;; c2" := (bind c1 (fun _ => c2))
  (at level 61, right associativity).

Module Fs.

Definition mem (p : string) (l : list string) : bool :=
  existsb (String.eqb p) l.

Fixpoint lookup (p : string) (fs : list (string * list byte))
  : option (list byte) :=
  match fs with
  | [] => None
  | (q, data) :: fs' => if String.eqb p q then Some data else lookup p fs'
  end.

(** Replace the contents of [p], or add [p] at the end of the listing. *)
Fixpoint store (p : string) (data : list byte) (fs : list (string * list byte))
  : list (string * list byte) :=
  match fs with
  | [] => [(p, data)]
  | (q, old) :: fs' =>
      if String.eqb p q then (q, data) :: fs' else (q, old) :: store p data fs'
  end.

Definition set_files (w : world) (fs : list (string * list byte)) : world :=
  mkWorld fs (dirs w) (trace w).

Definition is_file (p : string) (w : world) : bool :=
  match lookup p (files w) with Some _ => true | None => false end.

(** [os.path.exists(p)] *)
Definition exists_ (p : string) (w : world) : bool :=
  is_file p w || mem p (dirs w).

(** [os.path.getsize(p)] *)
Definition getsize (p : string) : M Z :=
  fun w => match lookup p (files w) with
           | Some data => (w, Ok (Z.of_nat (List.length data)))
           | None => (w, Raise FileNotFoundError)
           end.

(** [open(p, 'rb')]: the handle is the sequence of bytes still to read. *)
Definition open_rb (p : string) : M (list byte) :=
  fun w => match lookup p (files w) with
           | Some data => (w, Ok data)
           | None => (w, Raise FileNotFoundError)
           end.

(** Is [p] inside the directory tree rooted at [d]?  A test on the text of
    the paths, which are taken as the file system keeps them: without
    [.] and [..] segments. *)
Definition under (d p : string) : bool := startswith p (d ++ "/").

(** The directory an entry at [p] is created in: what precedes the last
    slash of [p]. *)
Definition parent (p : string) : string := take (Z.to_nat (rfind "/" p)) p.

(** Is there a directory at [d]?  The root and the working directory are
    there, a directory on record is, and so is one with a file below it. *)
Definition is_dir (d : string) (w : world) : bool :=
  String.eqb d "" || mem d (dirs w)
  || existsb (fun f => under d (fst f)) (files w).

(** A buffer of up to 50 MiB, which is what the message handler reads at a
    time, is taken to be available always. *)
Definition SAFE_BUFFER : Z := 50 * 1024 * 1024.

Section WithEnv.
Variable E : env.

(** Can a buffer of [n] bytes be had?  Never one of [2^63] bytes or more. *)
Definition buffer_ok (n : Z) : bool :=
  (n <? 2 ^ 63)%Z && ((n <=? SAFE_BUFFER)%Z || (n <=? memory E)%Z).

(** [handle.read(n)] on a file opened in binary mode: up to [n] bytes, and
    everything left when [n] is -1; the buffer is allocated for [n] bytes
    before anything is read.  Any other negative size is a [ValueError], a
    size that does not fit a C [ssize_t] an [OverflowError], and a buffer
    that cannot be had a [MemoryError]. *)
Definition read (n : Z) (handle : list byte)
  : result (list byte * list byte) :=
  if (n <? -1)%Z then Raise (ValueError "read length must be non-negative or -1")
  else if (2 ^ 63 <=? n)%Z then Raise OverflowError
  else if (n =? -1)%Z then
    if buffer_ok (Z.of_nat (List.length handle)) then Ok (handle, [])
    else Raise MemoryError
  else if buffer_ok n
       then Ok (firstn (Z.to_nat n) handle, skipn (Z.to_nat n) handle)
       else Raise MemoryError.

(** [open(p, 'wb')]: creates or truncates [p] in a directory that is
    there.  The open fails without that directory, and for the reasons the
    environment holds in [locked]: write protection, a directory at [p]. *)
Definition open_wb (p : string) : M unit :=
  fun w => if negb (is_dir (parent p) w) then (w, Raise FileNotFoundError)
           else if mem p (locked E) then (w, Raise PermissionError)
           else (set_files w (store p [] (files w)), Ok tt).

(** [handle.write(data)] on a handle opened for writing at [p]. *)
Definition write (p : string) (data : list byte) : M unit :=
  fun w => match lookup p (files w) with
           | Some old => (set_files w (store p (old ++ data) (files w)), Ok tt)
           | None => (w, Raise (ValueError "I/O operation on closed file"))
           end.

(** [os.makedirs(d, exist_ok=True)]: an existing directory is accepted, a
    regular file in its place or a permission fault is an error. *)
Definition makedirs (d : string) : M unit :=
  fun w =>
    if is_file d w then (w, Raise FileExistsError)
    else if mem d (dirs w) then (w, Ok tt)
    else if mem d (locked E) then (w, Raise PermissionError)
    else (mkWorld (files w) (dirs w ++ [d]) (trace w), Ok tt).

(** [os.listdir(d)]: the names of the entries directly in [d], regular
    files first, then sub-directories, then the entries that name
    nothing. *)
Definition entry_name (d p : string) : option string :=
  if String.eqb d "" then None
  else
    let prefix := if endswith d "/" then d else d ++ "/" in
    if startswith p prefix then
      let name := drop (String.length prefix) p in
      if String.eqb name "" || contains "/" name then None else Some name
    else None.

Fixpoint names_in (d : string) (ps : list string) : list string :=
  match ps with
  | [] => []
  | p :: ps' =>
      match entry_name d p with
      | Some name => name :: names_in d ps'
      | None => names_in d ps'
      end
  end.

Definition listdir (d : string) (w : world) : list string :=
  (names_in d (map fst (files w)) ++ names_in d (dirs w)
   ++ names_in d (dangling E))%list.

(** [shutil.rmtree(d)], files first: unlink the files of the tree in listing
    order and stop with an error at the first one that cannot be removed.
    When all files are gone the directories of the tree go too.  When a
    file cannot be removed, [shutil.rmtree] has already removed the
    directories it emptied on its way; which those are depends on the
    order of its traversal, and the record here keeps all directories. *)
Fixpoint unlink_tree (d : string) (fs : list (string * list byte))
  : list (string * list byte) * bool :=
  match fs with
  | [] => ([], true)
  | (p, data) :: fs' =>
      if under d p then
        if mem p (locked E) then ((p, data) :: fs', false)
        else unlink_tree d fs'
      else let (rest, ok) := unlink_tree d fs' in ((p, data) :: rest, ok)
  end.

Definition rmtree (d : string) : M unit :=
  fun w =>
    if is_file d w then (w, Raise NotADirectoryError)
    else
      match unlink_tree d (files w) with
      | (fs', false) => (set_files w fs', Raise PermissionError)
      | (fs', true) =>
          (mkWorld fs'
             (filter (fun q => negb (String.eqb q d || under d q)) (dirs w))
             (trace w), Ok tt)
      end.

End WithEnv.
End Fs.

(** ** EnhancedVideoDownloader *)

Module Downloader.
Import Fs.

Definition MAX_FILE_SIZE : Z := 50 * 1024 * 1024.
Definition CHUNK_SIZE : Z := 1024 * 1024.

(** The instance attributes set by [__init__]. *)
Record downloader : Type := mkDownloader {
  temp_dir : string;
  downloads_dir : string
}.

(** Python truth value of a returned path: [None] and [""] are false. *)
Definition truthy (r : option string) : bool :=
  match r with
  | Some p => negb (String.eqb p "")
  | None => false
  end.

Definition platform_name (t : platform) : string :=
  match t with
  | youtube => "youtube" | instagram => "instagram" | tiktok => "tiktok"
  | twitter => "twitter" | facebook => "facebook" | vimeo => "vimeo"
  | dailymotion => "dailymotion" | twitch => "twitch" | other => "other"
  end.

(** [f"{base_name}_part{chunk_num:03d}{extension}"] *)
Definition chunk_path (base_name : string) (chunk_num : N) (extension : string)
  : string :=
  base_name ++ "_part" ++ format_03d chunk_num ++ extension.

Section WithEnv.
Variable E : env.

(** [with open(chunk_path, 'wb') as chunk_file: chunk_file.write(chunk_data)] *)
Definition write_file (p : string) (data : list byte) : M unit :=
  open_wb E p ;;; write p data.

(** The [while True] loop of [split_large_file]; [source] is the handle
    opened on the file. *)
Equations split_loop (base_name extension : string) (chunk_size : Z)
    (source : list byte) (chunk_num : N) (chunks : list string) (w : world)
  : world * result (list string) by wf (List.length source) lt :=
  split_loop base_name extension chunk_size source chunk_num chunks w
    with Equations.Prop.Logic.inspect (read E chunk_size source) := {
    | exist _ (Raise e) _ => (w, Raise e)
    | exist _ (Ok (nil, _)) _ => (w, Ok chunks)
    | exist _ (Ok (b :: chunk_data, source')) Hread =>
        match write_file (chunk_path base_name chunk_num extension)
                         (b :: chunk_data) w with
        | (w', Raise e) => (w', Raise e)
        | (w', Ok _) =>
            split_loop base_name extension chunk_size source'
              (N.succ chunk_num)
              (chunks ++ [chunk_path base_name chunk_num extension]) w'
        end }.
Next Obligation.
  revert Hread. unfold read.
  destruct (chunk_size <? -1)%Z; [discriminate |].
  destruct (2 ^ 63 <=? chunk_size)%Z; [discriminate |].
  destruct (chunk_size =? -1)%Z.
  - destruct (buffer_ok E _); [| discriminate].
    intros Hread; injection Hread as Hc <-. subst source. simpl. lia.
  - destruct (buffer_ok E chunk_size); [| discriminate].
    intros Hread; injection Hread as Hc <-.
    destruct (Z.to_nat chunk_size) as [|k]; [discriminate |].
    destruct source as [|b0 source]; [discriminate |].
    simpl. pose proof (length_skipn k source). lia.
Qed.

(** The [try] block of [split_large_file]. *)
Definition split_large_file_try (file_path : string) (chunk_size : Z)
  : M (list string) :=
  file_size <- getsize file_path ;;
  if (file_size <=? MAX_FILE_SIZE)%Z then ret [file_path]
  else
    let base_name := fst (splitext file_path) in
    let extension := snd (splitext file_path) in
    source <- open_rb file_path ;;
    split_loop base_name extension chunk_size source 0%N [].

(** [EnhancedVideoDownloader.split_large_file]: the [try] block under
    [except Exception: return [file_path]]. *)
Definition split_large_file (file_path : string) (chunk_size : Z)
  : M (list string) :=
  try_except (split_large_file_try file_path chunk_size)
             (fun _ => ret [file_path]).

(** Append the strategy invocation and what it returned to the record. *)
Definition invoked (s : strategy) (c : M (option string)) : M (option string) :=
  r <- c ;;
  fun w => (mkWorld (files w) (dirs w) (trace w ++ [Attempt s r]), Ok r).

(** [subprocess.run([tool, '--version'], capture_output=True, text=True)] *)
Definition run_version (t : tool) : M Z :=
  fun w => match version_probe E t with
           | Returned rc => (w, Ok rc)
           | TimedOut => (w, Raise TimeoutExpired)
           | NotStarted => (w, Raise FileNotFoundError)
           end.

(** [subprocess.run(cmd, capture_output=True, text=True, timeout=300)]:
    whatever the tool wrote is in the output directory afterwards. *)
Definition run_download (t : tool) (url output_dir : string) : M Z :=
  fun w =>
    let written :=
      fold_left (fun fs f => store (join output_dir (fst f)) (snd f) fs)
                (tool_output E t url output_dir) (files w) in
    match run_tool E t url output_dir with
    | Returned rc => (set_files w written, Ok rc)
    | TimedOut => (set_files w written, Raise TimeoutExpired)
    | NotStarted => (w, Raise FileNotFoundError)
    end.

(** [for file in os.listdir(output_dir): if file.endswith(exts): return
    os.path.join(output_dir, file)]; falling out of the loop returns None. *)
Definition first_video (exts : list string) (output_dir : string)
  : M (option string) :=
  fun w =>
    (w, Ok (option_map (join output_dir)
              (find (fun file => existsb (endswith file) exts)
                    (listdir E output_dir w)))).

Definition VIDEO_EXTS : list string :=
  [".mp4"; ".avi"; ".mov"; ".mkv"; ".webm"; ".flv"; ".wmv"; ".m4v"].

Definition INSTALOADER_EXTS : list string :=
  [".mp4"; ".avi"; ".mov"; ".mkv"; ".webm"].

(** The common shape of the three subprocess strategies. *)
Definition download_with_tool (t : tool) (exts : list string)
    (url output_dir : string) : M (option string) :=
  invoked (ByTool t)
    (try_except
       (test_result <- run_version t ;;
        if negb (test_result =? 0)%Z then ret None
        else
          result <- run_download t url output_dir ;;
          if (result =? 0)%Z then first_video exts output_dir
          else ret None)
       (fun _ => ret None)).

(** [EnhancedVideoDownloader.download_with_ytdlp] *)
Definition download_with_ytdlp := download_with_tool YtDlp VIDEO_EXTS.

(** [EnhancedVideoDownloader.download_with_youtubedl] *)
Definition download_with_youtubedl := download_with_tool YoutubeDl VIDEO_EXTS.

(** [EnhancedVideoDownloader.download_with_instaloader] *)
Definition download_with_instaloader :=
  download_with_tool Instaloader INSTALOADER_EXTS.

(** [EnhancedVideoDownloader.download_with_yt_dlp_fallback] *)
Definition download_with_yt_dlp_fallback (url output_dir : string)
  : M (option string) :=
  result <- download_with_ytdlp url output_dir ;;
  if truthy result then ret result
  else
    result <- download_with_youtubedl url output_dir ;;
    if truthy result then ret result
    else if contains "instagram.com" (lower url) then
      result <- download_with_instaloader url output_dir ;;
      if truthy result then ret result else ret None
    else ret None.

(** [response.raise_for_status()] *)
Definition raise_for_status (status : Z) : M unit :=
  if ((400 <=? status) && (status <? 600))%Z then raise RequestException
  else ret tt.

(** [int(response.headers.get('content-length', 0))] *)
Definition content_length_of (h : header_value) : M Z :=
  match h with
  | Absent => ret 0%Z
  | IntValue n => ret n
  | Malformed => raise (ValueError "invalid literal for int() with base 10")
  end.

(** [for chunk in response.iter_content(...): if chunk: file.write(chunk)] *)
Fixpoint write_chunks (p : string) (chunks : list (list byte)) : M unit :=
  match chunks with
  | [] => ret tt
  | chunk :: rest =>
      (match chunk with [] => ret tt | _ => write p chunk end) ;;;
      write_chunks p rest
  end.

(** The body shared by the two direct-fetch strategies. *)
Definition fetch (h : header_set) (url output_path : string)
  : M (option string) :=
  try_except
    (match http_get E h url with
     | NoResponse => raise RequestException
     | Response status content_length chunks ending =>
         raise_for_status status ;;;
         total_size <- content_length_of content_length ;;
         open_wb E output_path ;;;
         write_chunks output_path chunks ;;;
         match ending with
         | EndOfBody => ret (Some output_path)
         | ConnectionLost => raise RequestException
         end
     end)
    (fun _ => ret None).

(** [EnhancedVideoDownloader.download_direct] *)
Definition download_direct (url output_path : string) : M (option string) :=
  invoked (DirectFetch MinimalHeaders) (fetch MinimalHeaders url output_path).

(** [EnhancedVideoDownloader.download_direct_with_enhanced_headers] *)
Definition download_direct_with_enhanced_headers (url output_path : string)
  : M (option string) :=
  invoked (DirectFetch EnhancedHeaders) (fetch EnhancedHeaders url output_path).

Definition all_failed (t : platform) : exn :=
  Exception ("All download methods failed for " ++ platform_name t ++ " platform").

(** [os.path.join(self.downloads_dir, str(int(time.time())))] *)
Definition download_dir (self : downloader) : string :=
  join (downloads_dir self) (str_int (now E)).

(** [urlparse(url)] for the exception it may raise. *)
Definition urlparse_check (url : string) : M unit :=
  if urlsplit_raises url then raise (ValueError "Invalid IPv6 URL")
  else ret tt.

(** [EnhancedVideoDownloader.download_video]; the first thing it does with
    the URL is [self.get_platform_type(url)], which parses [url.lower()]. *)
Definition download_video (self : downloader) (url filename : string)
  : M string :=
  try_except
    (let download_dir := download_dir self in
     makedirs E download_dir ;;;
     urlparse_check (lower url) ;;;
     let platform_type := get_platform_type url in
     downloaded_file <-
       (if is_video_platform url
        then download_with_yt_dlp_fallback url download_dir
        else ret None) ;;
     downloaded_file <-
       (if negb (truthy downloaded_file) && is_video_platform url then
          match platform_type with
          | youtube | instagram | tiktok =>
              try_except
                (download_direct_with_enhanced_headers url
                   (join download_dir ("alternative_" ++ filename)))
                (fun _ => ret downloaded_file)
          | _ => ret downloaded_file
          end
        else ret downloaded_file) ;;
     downloaded_file <-
       (if negb (truthy downloaded_file)
        then download_direct url (join download_dir filename)
        else ret downloaded_file) ;;
     fun w =>
       match downloaded_file with
       | Some p =>
           if truthy downloaded_file && exists_ p w then (w, Ok p)
           else (w, Raise (all_failed platform_type))
       | None => (w, Raise (all_failed platform_type))
       end)
    (fun e => raise (Exception ("Failed to download video: " ++ exn_str e))).

(** [EnhancedVideoDownloader.cleanup_all] *)
Definition cleanup_all (self : downloader) : M unit :=
  try_except
    (fun w => if exists_ (temp_dir self) w then rmtree E (temp_dir self) w
              else (w, Ok tt))
    (fun _ => ret tt).


End WithEnv.
End Downloader.

Import Fs Downloader.

(** ** Vocabulary of the specification *)

Module Spec.

(** [ceil(a / b)] for a positive [b]. *)
Definition ceil_div (a b : Z) : Z := (a + b - 1) / b.

(** The paths of [n] consecutive parts, the first with index [first]. *)
Definition part_paths (base_name extension : string) (first : N) (n : nat)
  : list string :=
  map (fun i => chunk_path base_name (first + N.of_nat i) extension) (seq 0 n).

(** The contents of the files at [ps], in order; [None] when one is missing. *)
Fixpoint read_files (ps : list string) (w : world) : option (list (list byte)) :=
  match ps with
  | [] => Some []
  | p :: ps' =>
      match lookup p (files w), read_files ps' w with
      | Some d, Some ds => Some (d :: ds)
      | _, _ => None
      end
  end.


(** The characters of a plain URL: printable ASCII other than the space
    and the square brackets. *)
Definition url_char (c : ascii) : bool :=
  ((33 <=? nat_of_ascii c) && (nat_of_ascii c <=? 126))%nat
  && negb (Ascii.eqb c "[" || Ascii.eqb c "]").

Definition plain_url (url : string) : bool := all_chars url_char url.

(** The characters of a plain host: those of a plain URL that do not end
    the network location. *)
Definition host_char (c : ascii) : bool :=
  url_char c && negb (Ascii.eqb c "/" || Ascii.eqb c "?" || Ascii.eqb c "#").

(** Characters [urlsplit] keeps where they are. *)
Definition kept_char (c : ascii) : bool := negb (is_unsafe c).

Definition tool_eqb (a b : tool) : bool :=
  match a, b with
  | YtDlp, YtDlp | YoutubeDl, YoutubeDl | Instaloader, Instaloader => true
  | _, _ => false
  end.

Definition strategy_eqb (a b : strategy) : bool :=
  match a, b with
  | ByTool t, ByTool u => tool_eqb t u
  | DirectFetch EnhancedHeaders, DirectFetch EnhancedHeaders
  | DirectFetch MinimalHeaders, DirectFetch MinimalHeaders => true
  | _, _ => false
  end.

Definition strategy_of (e : event) : strategy :=
  match e with Attempt s _ => s end.

Definition returned_of (e : event) : option string :=
  match e with Attempt _ r => r end.

(** What the last invocation of a run returned. *)
Definition final_result (evs : list event) : option string :=
  last (map returned_of evs) None.

(** Did the invocation yield a file, as the chain tests it ([if result:])? *)
Definition succeeded (e : event) : bool :=
  match e with Attempt _ r => truthy r end.


(** The strategies [download_with_yt_dlp_fallback] goes through for a URL
    when none of them yields a file, read off its conditionals. *)
Definition fallback_order (url : string) : list strategy :=
  ([ByTool YtDlp; ByTool YoutubeDl]
   ++ (if contains "instagram.com" (lower url)
       then [ByTool Instaloader] else []))%list.


(** [evs] records a run through [order] that stops at the first invocation
    that yields a file and otherwise reaches the end of [order]. *)
Fixpoint is_run (order : list strategy) (evs : list event) : bool :=
  match order, evs with
  | [], [] => true
  | s :: order', Attempt s' r :: evs' =>
      strategy_eqb s s'
      && (if truthy r then match evs' with [] => true | _ :: _ => false end
          else is_run order' evs')
  | _, _ => false
  end.

(** [evs] is such a run and [r] is what it leaves in the variable holding
    the downloaded file: a usable path exactly when an invocation yielded
    one, and then that path. *)
Definition run_of (order : list strategy) (evs : list event)
    (r : option string) : Prop :=
  is_run order evs = true
  /\ truthy r = existsb succeeded evs
  /\ (truthy r = true -> final_result evs = r).

End Spec.

Import Spec.

(** ** Scenarios *)

Module Scenario.

(** 8 GiB of memory for read buffers. *)
Definition GIB8 : Z := 8 * 1024 * 1024 * 1024.

(** No tool is installed, no HTTP peer answers, nothing is write-protected. *)
Definition quiet : env :=
  mkEnv [] [] GIB8 1700000000
        (fun _ => NotStarted) (fun _ _ _ => NotStarted) (fun _ _ _ => [])
        (fun _ _ => NoResponse).


Definition bot : downloader :=
  mkDownloader "/tmp/video_bot" "/tmp/video_bot/downloads".

Definition video : string := "/tmp/video_bot/downloads/1700000000/video.mp4".

(** As [quiet], but the second part of [video] cannot be written. *)
Definition second_part_locked : env :=
  mkEnv ["/tmp/video_bot/downloads/1700000000/video_part001.mp4"] [] GIB8 1700000000
        (fun _ => NotStarted) (fun _ _ _ => NotStarted) (fun _ _ _ => [])
        (fun _ _ => NoResponse).

(** One byte more than the delivery limit. *)
Definition oversized : list byte :=
  repeat x00 (Z.to_nat (MAX_FILE_SIZE + 1)).

(** The workspace with the oversized download in it. *)
Definition downloaded : world :=
  mkWorld [(video, oversized)]
          ["/tmp/video_bot"; "/tmp/video_bot/downloads";
           "/tmp/video_bot/downloads/1700000000"] [].

(** A fresh workspace. *)
Definition fresh : world :=
  mkWorld [] ["/tmp/video_bot"; "/tmp/video_bot/downloads"] [].

(** yt-dlp is installed and downloads a two-byte clip; nothing else works. *)
Definition ytdlp_works : env :=
  mkEnv [] [] GIB8 1700000000
        (fun t => match t with YtDlp => Returned 0 | _ => NotStarted end)
        (fun t _ _ => match t with YtDlp => Returned 0 | _ => NotStarted end)
        (fun t _ _ => match t with
                      | YtDlp => [("clip.mp4", [x01; x02])]
                      | _ => []
                      end)
        (fun _ _ => NoResponse).

(** A workspace holding two small downloads, the second write-protected. *)
Definition two_clips : world :=
  mkWorld [("/tmp/video_bot/downloads/1/a.mp4", [x01]);
           ("/tmp/video_bot/downloads/2/b.mp4", [x02]);
           ("/var/log/bot.log", [x03])]
          ["/tmp/video_bot"; "/tmp/video_bot/downloads";
           "/tmp/video_bot/downloads/1"; "/tmp/video_bot/downloads/2"] [].








(** A URL with a TAB in its host, and one with an unmatched bracket. *)
Definition tab_url : string :=
  "https://insta" ++ String "009" "gram.com/reel/1".

Definition bracket_url : string := "http://[youtube.com/x".

Definition second_clip_locked : env :=
  mkEnv ["/tmp/video_bot/downloads/2/b.mp4"] [] GIB8 1700000000
        (fun _ => NotStarted) (fun _ _ _ => NotStarted) (fun _ _ _ => [])
        (fun _ _ => NoResponse).

End Scenario.

(** ** urllib.parse: scheme and path

    The other components of [urlparse(url)] the program reads, taken from
    the URL as [urlsplit] cleans it: the scheme as [urlsplit] recognises
    it, and the path, which is what follows the network location up to the
    first '#' and the first '?', without the parameters of its last
    segment when the scheme takes parameters. *)

Module UrlPath.
Import PyStr UrlParse PyPath.

(** [s.split(c, 1)[0]]: up to the first [c], all of [s] without one. *)
Fixpoint until_char (c : ascii) (s : string) : string :=
  match s with
  | EmptyString => EmptyString
  | String x s' =>
      if Ascii.eqb x c then EmptyString else String x (until_char c s')
  end.

(** The scheme, lower-cased; empty when there is none. *)
Definition scheme (url : string) : string :=
  match split_colon (clean url) with
  | Some (String c0 pre', _) =>
      if is_alpha c0 && all_chars is_scheme_char (String c0 pre')
      then lower (String c0 pre') else EmptyString
  | _ => EmptyString
  end.

(** [urlsplit(url).path] *)
Definition split_path (url : string) : string :=
  let url := strip_scheme (clean url) in
  let url :=
    if startswith url "//"
    then drop (String.length (until_delim (drop 2 url))) (drop 2 url)
    else url in
  let url := until_char "#" url in
  until_char "?" url.

Definition uses_params : list string :=
  [ ""; "ftp"; "hdl"; "prospero"; "http"; "imap"; "https"; "shttp"; "rtsp";
    "rtspu"; "sip"; "sips"; "mms"; "sftp"; "tel" ].

(** [_splitparams(url)[0]]: the parameters start at the first ';' of the
    last path segment. *)
Definition splitparams (url : string) : string :=
  if contains "/" url then
    let i := Z.to_nat (rfind "/" url) in
    take i url ++ until_char ";" (drop i url)
  else until_char ";" url.

(** [urlparse(url).path] *)
Definition path (url : string) : string :=
  let p := split_path url in
  if existsb (String.eqb (scheme url)) uses_params && contains ";" p
  then splitparams p else p.

End UrlPath.

(** ** File names and URL screening *)

Module Intake.
Import PyStr UrlParse PyPath.

(** The [video_extensions] list local to [is_video_url], which is also the
    tuple the message handler tests the file name against. *)
Definition video_extensions : list string :=
  [".mp4"; ".avi"; ".mov"; ".mkv"; ".webm"; ".flv"; ".wmv"; ".m4v";
   ".3gp"; ".ogv"].

(** The [video_platforms] list local to [is_video_url]. *)
Definition video_url_platforms : list string :=
  [ "youtube.com"; "youtu.be"; "vimeo.com"; "dailymotion.com";
    "twitch.tv"; "instagram.com"; "tiktok.com"; "twitter.com";
    "facebook.com"; "reddit.com"; "discord.com"; "pinterest.com";
    "snapchat.com"; "linkedin.com"; "tumblr.com" ].

(** [EnhancedVideoDownloader.is_video_url]: the value it returns; it raises
    where [urlparse(url.lower())] does. *)
Definition is_video_url (url : string) : bool :=
  let netloc := netloc (lower url) in
  let path := lower (UrlPath.path (lower url)) in
  if existsb (fun platform => contains platform netloc) video_url_platforms
  then true
  else existsb (fun ext => endswith path ext) video_extensions.

Section WithEnv.
Variable E : env.

(** [EnhancedVideoDownloader.extract_filename]: the name it returns; it
    raises where [urlparse(url)] does. *)
Definition extract_filename (url : string) : string :=
  let filename := basename (UrlPath.path url) in
  if String.eqb filename "" || negb (contains "." filename)
  then "video_" ++ str_int (now E) ++ ".mp4"
  else filename.

(** The file name the message handler passes on: [extract_filename(url)],
    with [.mp4] appended unless it ends, in lower case, with one of the
    video extensions. *)
Definition handler_filename (url : string) : string :=
  let filename := extract_filename url in
  if negb (existsb (fun ext => endswith (lower filename) ext) video_extensions)
  then filename ++ ".mp4"
  else filename.

End WithEnv.
End Intake.

Import UrlPath Intake.

(** ** The strategies by what they use *)

Module Strategies.

(** The direct-fetch method that sends the header set [h]. *)
Definition direct_fetch (E : env) (h : header_set)
  : string -> string -> M (option string) :=
  match h with
  | MinimalHeaders => download_direct E
  | EnhancedHeaders => download_direct_with_enhanced_headers E
  end.

(** The subprocess method that runs the tool [t]. *)
Definition by_tool (E : env) (t : tool)
  : string -> string -> M (option string) :=
  match t with
  | YtDlp => download_with_ytdlp E
  | YoutubeDl => download_with_youtubedl E
  | Instaloader => download_with_instaloader E
  end.

(** The extensions the method that runs [t] looks for. *)
Definition extensions_of (t : tool) : list string :=
  match t with
  | YtDlp | YoutubeDl => VIDEO_EXTS
  | Instaloader => INSTALOADER_EXTS
  end.

End Strategies.

Import Strategies.

(** ** More scenarios *)

Module Cases.
Import Scenario.


(** The peer answers 404. *)
Definition not_found : env :=
  mkEnv [] [] GIB8 1700000000
        (fun _ => NotStarted) (fun _ _ _ => NotStarted) (fun _ _ _ => [])
        (fun _ _ => Response 404 Absent [[x01]] EndOfBody).

(** The connection drops after the first chunk. *)
Definition dropped : env :=
  mkEnv [] [] GIB8 1700000000
        (fun _ => NotStarted) (fun _ _ _ => NotStarted) (fun _ _ _ => [])
        (fun _ _ => Response 200 Absent [[x01; x02]] ConnectionLost).


(** yt-dlp answers the version probe, writes a clip and then times out. *)
Definition ytdlp_times_out : env :=
  mkEnv [] [] GIB8 1700000000
        (fun t => match t with YtDlp => Returned 0 | _ => NotStarted end)
        (fun t _ _ => match t with YtDlp => TimedOut | _ => NotStarted end)
        (fun t _ _ => match t with
                      | YtDlp => [("clip.mp4", [x01])]
                      | _ => []
                      end)
        (fun _ _ => NoResponse).

End Cases.

(** * Properties *)

Example netloc_ex1 : netloc "https://www.youtube.com/shorts/abc123" = "www.youtube.com".
Proof. reflexivity. Qed.

Example netloc_ex2 : netloc "example.com/video.mp4" = "".
Proof. reflexivity. Qed.

Example netloc_ex3 : netloc "https://vimeo.com?x=1#f" = "vimeo.com".
Proof. reflexivity. Qed.

(** [urlsplit] strips leading spaces and removes TAB, CR and LF. *)
Example netloc_ex4 : netloc "  https://vimeo.com/1" = "vimeo.com".
Proof. reflexivity. Qed.

Example netloc_ex5 : netloc Scenario.tab_url = "instagram.com".
Proof. reflexivity. Qed.

Example urlsplit_raises_ex1 : urlsplit_raises Scenario.bracket_url = true.
Proof. reflexivity. Qed.

Example urlsplit_raises_ex2 : urlsplit_raises "http://[::1]:8080/x" = false.
Proof. reflexivity. Qed.

Example platform_ex1 : get_platform_type "https://YouTu.be/dQw4w9WgXcQ" = youtube.
Proof. reflexivity. Qed.

Example platform_ex2 : get_platform_type "https://site.com/file.mov" = other.
Proof. reflexivity. Qed.

Example splitext_ex1 :
  splitext Scenario.video
  = ("/tmp/video_bot/downloads/1700000000/video", ".mp4").
Proof. reflexivity. Qed.

Example splitext_ex2 : splitext "/tmp/d.1/.hidden" = ("/tmp/d.1/.hidden", "").
Proof. reflexivity. Qed.

Example splitext_ex3 : splitext "clip.tar.gz" = ("clip.tar", ".gz").
Proof. reflexivity. Qed.

Example chunk_path_ex1 : chunk_path "/d/clip" 7 ".mp4" = "/d/clip_part007.mp4".
Proof. reflexivity. Qed.

Example chunk_path_ex2 : chunk_path "/d/clip" 1234 "" = "/d/clip_part1234".
Proof. reflexivity. Qed.

(** The loop on five bytes in blocks of two. *)
Example split_loop_ex1 :
  split_loop Scenario.quiet "/d/clip" ".mp4" 2 [x01; x02; x03; x04; x05] 0 []
    (mkWorld [] ["/d"] [])
  = (mkWorld [("/d/clip_part000.mp4", [x01; x02]);
              ("/d/clip_part001.mp4", [x03; x04]);
              ("/d/clip_part002.mp4", [x05])] ["/d"] [],
     Ok ["/d/clip_part000.mp4"; "/d/clip_part001.mp4"; "/d/clip_part002.mp4"]).
Proof. vm_compute. reflexivity. Qed.

(** A chunk size of zero reads nothing and makes no part; a chunk size of
    -1 reads the whole source into one part. *)
Example split_loop_ex2 :
  split_loop Scenario.quiet "/d/clip" ".mp4" 0 [x01; x02; x03] 0 []
    (mkWorld [] ["/d"] [])
  = (mkWorld [] ["/d"] [], Ok []).
Proof. vm_compute. reflexivity. Qed.

Example split_loop_ex3 :
  split_loop Scenario.quiet "/d/clip" ".mp4" (-1) [x01; x02; x03] 0 []
    (mkWorld [] ["/d"] [])
  = (mkWorld [("/d/clip_part000.mp4", [x01; x02; x03])] ["/d"] [],
     Ok ["/d/clip_part000.mp4"]).
Proof. vm_compute. reflexivity. Qed.

(** Any other negative chunk size, and one of [2^63] or more, makes the
    first [read] raise. *)
Example split_loop_ex4 :
  split_loop Scenario.quiet "/d/clip" ".mp4" (-2) [x01; x02; x03] 0 []
    (mkWorld [] ["/d"] [])
  = (mkWorld [] ["/d"] [],
     Raise (ValueError "read length must be non-negative or -1")).
Proof. vm_compute. reflexivity. Qed.

Example split_loop_ex5 :
  split_loop Scenario.quiet "/d/clip" ".mp4" (2 ^ 63) [x01; x02; x03] 0 []
    (mkWorld [] ["/d"] [])
  = (mkWorld [] ["/d"] [], Raise OverflowError).
Proof. vm_compute. reflexivity. Qed.

(** A part file cannot be created in a directory that is not there. *)
Example split_loop_ex6 :
  split_loop Scenario.quiet "/d/clip" ".mp4" 2 [x01; x02; x03] 0 []
    (mkWorld [] [] [])
  = (mkWorld [] [] [], Raise FileNotFoundError).
Proof. vm_compute. reflexivity. Qed.

(** A file within the limit is not split. *)
Example split_large_file_ex1 :
  split_large_file Scenario.quiet "/tmp/video_bot/downloads/1/a.mp4" CHUNK_SIZE
    Scenario.two_clips
  = (Scenario.two_clips, Ok ["/tmp/video_bot/downloads/1/a.mp4"]).
Proof. vm_compute. reflexivity. Qed.

(** A missing file: [getsize] raises, the handler returns the path. *)
Example split_large_file_ex2 :
  split_large_file Scenario.quiet "/nowhere.mp4" CHUNK_SIZE Scenario.two_clips
  = (Scenario.two_clips, Ok ["/nowhere.mp4"]).
Proof. vm_compute. reflexivity. Qed.

(** The first downloader succeeds: nothing else is tried. *)
Example download_video_ex1 :
  download_video Scenario.ytdlp_works Scenario.bot "https://youtu.be/abc"
    "video.mp4" Scenario.fresh
  = (mkWorld [("/tmp/video_bot/downloads/1700000000/clip.mp4", [x01; x02])]
             ["/tmp/video_bot"; "/tmp/video_bot/downloads";
              "/tmp/video_bot/downloads/1700000000"]
             [Attempt (ByTool YtDlp)
                (Some "/tmp/video_bot/downloads/1700000000/clip.mp4")],
     Ok "/tmp/video_bot/downloads/1700000000/clip.mp4").
Proof. vm_compute. reflexivity. Qed.

(** Nothing works: all five strategies are tried for an instagram URL. *)
Example download_video_ex2 :
  download_video Scenario.quiet Scenario.bot "https://www.instagram.com/reel/abc/"
    "video.mp4" Scenario.fresh
  = (mkWorld []
             ["/tmp/video_bot"; "/tmp/video_bot/downloads";
              "/tmp/video_bot/downloads/1700000000"]
             [Attempt (ByTool YtDlp) None; Attempt (ByTool YoutubeDl) None;
              Attempt (ByTool Instaloader) None;
              Attempt (DirectFetch EnhancedHeaders) None;
              Attempt (DirectFetch MinimalHeaders) None],
     Raise (Exception "Failed to download video: All download methods failed for instagram platform")).
Proof. vm_compute. reflexivity. Qed.

(** A URL of no known platform goes straight to the plain direct fetch. *)
Example download_video_ex3 :
  trace (fst (download_video Scenario.quiet Scenario.bot
                "https://example.com/clip.mp4" "clip.mp4" Scenario.fresh))
  = [Attempt (DirectFetch MinimalHeaders) None].
Proof. vm_compute. reflexivity. Qed.

(** A URL on which [urlparse] raises: the directory is made, nothing is
    tried. *)
Example download_video_ex4 :
  download_video Scenario.quiet Scenario.bot Scenario.bracket_url "x.mp4"
    Scenario.fresh
  = (mkWorld []
             ["/tmp/video_bot"; "/tmp/video_bot/downloads";
              "/tmp/video_bot/downloads/1700000000"] [],
     Raise (Exception "Failed to download video: Invalid IPv6 URL")).
Proof. vm_compute. reflexivity. Qed.

(** Cleanup removes the tree, and only the tree. *)
Example cleanup_all_ex1 :
  cleanup_all Scenario.quiet Scenario.bot Scenario.two_clips
  = (mkWorld [("/var/log/bot.log", [x03])] [] [], Ok tt).
Proof. vm_compute. reflexivity. Qed.

(** Cleanup stopped by a write-protected file: the error is swallowed and
    what was not removed stays. *)
Example cleanup_all_ex2 :
  cleanup_all Scenario.second_clip_locked Scenario.bot Scenario.two_clips
  = (mkWorld [("/tmp/video_bot/downloads/2/b.mp4", [x02]);
              ("/var/log/bot.log", [x03])]
             ["/tmp/video_bot"; "/tmp/video_bot/downloads";
              "/tmp/video_bot/downloads/1"; "/tmp/video_bot/downloads/2"] [],
     Ok tt).
Proof. vm_compute. reflexivity. Qed.

(** ** Facts about strings *)

Module StrFacts.

Lemma append_nil_r (s : string) : s ++ "" = s.
Proof. induction s; simpl; congruence. Qed.

Lemma append_assoc (a b c : string) : (a ++ b) ++ c = a ++ (b ++ c).
Proof. induction a; simpl; congruence. Qed.

Lemma length_append (a b : string) :
  String.length (a ++ b) = String.length a + String.length b.
Proof. induction a; simpl; congruence. Qed.

Lemma append_inv_l (a b c : string) : a ++ b = a ++ c -> b = c.
Proof. induction a; simpl; intros H; [exact H | injection H; auto]. Qed.

Lemma append_inv_r (a b c : string) : a ++ c = b ++ c -> a = b.
Proof.
  revert b. induction a as [|x a IH]; intros [|y b] H; simpl in *.
  - reflexivity.
  - apply (f_equal String.length) in H. simpl in H.
    rewrite length_append in H. lia.
  - apply (f_equal String.length) in H. simpl in H.
    rewrite length_append in H. lia.
  - injection H as -> H. f_equal. auto.
Qed.

Lemma prefix_append (a r : string) : String.prefix a (a ++ r) = true.
Proof.
  induction a as [|x a IH]; simpl; [destruct r; reflexivity |].
  destruct (ascii_dec x x); [exact IH | contradiction].
Qed.

Lemma prefix_inv (a b : string) :
  String.prefix a b = true -> exists r, b = a ++ r.
Proof.
  revert b. induction a as [|x a IH]; intros b H.
  - exists b. reflexivity.
  - destruct b as [|y b]; [discriminate |]. simpl in H.
    destruct (ascii_dec x y) as [->|]; [| discriminate].
    destruct (IH b H) as [r ->]. exists r. reflexivity.
Qed.

Lemma contains_unfold (needle hay : string) :
  contains needle hay =
  if String.prefix needle hay then true
  else match hay with
       | EmptyString => false
       | String _ hay' => contains needle hay'
       end.
Proof. destruct hay; reflexivity. Qed.

Lemma contains_prefix (needle hay : string) :
  String.prefix needle hay = true -> contains needle hay = true.
Proof. intros H. rewrite contains_unfold, H. reflexivity. Qed.

(** [contains] is the substring relation. *)
Lemma contains_iff (needle hay : string) :
  contains needle hay = true <-> exists a b, hay = a ++ needle ++ b.
Proof.
  split.
  - induction hay as [|c hay IH]; rewrite contains_unfold;
      destruct (String.prefix needle _) eqn:Hp.
    + intros _. apply prefix_inv in Hp. destruct Hp as [r Hr].
      exists "", r. exact Hr.
    + discriminate.
    + intros _. apply prefix_inv in Hp. destruct Hp as [r Hr].
      exists "", r. exact Hr.
    + intros H. destruct (IH H) as (a & b & ->).
      exists (String c a), b. reflexivity.
  - intros (a & b & ->). induction a as [|c a IH].
    + change ("" ++ needle ++ b) with (needle ++ b).
      apply contains_prefix, prefix_append.
    + change (String c a ++ needle ++ b) with (String c (a ++ needle ++ b)).
      rewrite contains_unfold.
      destruct (String.prefix needle _); [reflexivity | exact IH].
Qed.

Lemma contains_within (needle a hay b : string) :
  contains needle hay = true -> contains needle (a ++ hay ++ b) = true.
Proof.
  rewrite !contains_iff. intros (x & y & ->).
  exists (a ++ x), (y ++ b). now rewrite !append_assoc.
Qed.

Lemma take_drop (n : nat) (s : string) : take n s ++ drop n s = s.
Proof.
  revert s. induction n as [|n IH]; intros [|c s]; simpl; try reflexivity.
  now rewrite IH.
Qed.

End StrFacts.

(** ** Characters and names *)

Module NameFacts.
Import StrFacts.

Lemma all_chars_append f a b :
  all_chars f (a ++ b) = all_chars f a && all_chars f b.
Proof.
  induction a as [|c a IH]; simpl; [reflexivity |].
  now rewrite IH, andb_assoc.
Qed.

Lemma all_chars_impl (f g : ascii -> bool) s :
  (forall c, f c = true -> g c = true) ->
  all_chars f s = true -> all_chars g s = true.
Proof.
  intros Hfg. induction s as [|c s IH]; simpl; [reflexivity |].
  intros H. apply andb_prop in H. destruct H as [Hc Hs].
  now rewrite (Hfg c Hc), IH.
Qed.

(** A string without the character [c] has no substring starting with it. *)
Lemma without_char_contains c rest s :
  all_chars (fun x => negb (Ascii.eqb x c)) s = true ->
  contains (String c rest) s = false.
Proof.
  induction s as [|x s IH]; [reflexivity |]. simpl.
  intros H. apply andb_prop in H. destruct H as [Hx Hs].
  destruct (ascii_dec c x) as [->|_].
  - now rewrite Ascii.eqb_refl in Hx.
  - auto.
Qed.

Lemma contains_char_all c s :
  contains (String c "") s = false ->
  all_chars (fun x => negb (Ascii.eqb x c)) s = true.
Proof.
  induction s as [|x s IH]; [reflexivity |].
  rewrite contains_unfold. simpl.
  destruct (ascii_dec c x) as [->|Hne].
  - destruct s; discriminate.
  - intros H. rewrite (IH H), andb_true_r.
    destruct (Ascii.eqb_spec x c); [congruence | reflexivity].
Qed.

(** [rfind] finds the last occurrence: what follows it is free of [c]. *)
Lemma rfind_from_spec c s :
  forall i acc,
    (all_chars (fun x => negb (Ascii.eqb x c)) s = true
     /\ rfind_from c s i acc = acc)
    \/ exists a b,
         s = a ++ String c b
         /\ all_chars (fun x => negb (Ascii.eqb x c)) b = true
         /\ rfind_from c s i acc = (i + Z.of_nat (String.length a))%Z.
Proof.
  induction s as [|x s IH]; intros i acc; simpl; [auto |].
  destruct (IH (i + 1)%Z (if Ascii.eqb x c then i else acc))
    as [[Hnone Hr] | (a & b & -> & Hb & Hr)].
  - destruct (Ascii.eqb_spec x c) as [->|Hne].
    + right. exists "", s. simpl. rewrite Hr. repeat split; auto. lia.
    + left. simpl. auto.
  - right. exists (String x a), b. simpl. rewrite Hr.
    repeat split; auto. lia.
Qed.

Lemma drop_append_more (a b : string) n :
  drop (String.length a + n) (a ++ b) = drop n b.
Proof. induction a as [|c a IH]; simpl; auto. Qed.

Lemma basename_no_slash p : contains "/" (basename p) = false.
Proof.
  unfold basename, rfind. apply without_char_contains.
  destruct (rfind_from_spec "/" p 0 (-1)) as [[Hnone ->] | (a & b & -> & Hb & ->)].
  - exact Hnone.
  - replace (Z.to_nat (0 + Z.of_nat (String.length a) + 1))
      with (String.length a + 1) by lia.
    rewrite drop_append_more. exact Hb.
Qed.

(** The last path component of a path that does not end with a slash is
    what [basename] returns, and the path is the directory part, a slash
    and that component. *)
Lemma basename_split dir name :
  contains "/" name = false -> basename (dir ++ "/" ++ name) = name.
Proof.
  intros Hname. apply contains_char_all in Hname.
  unfold basename, rfind.
  destruct (rfind_from_spec "/" (dir ++ "/" ++ name) 0 (-1))
    as [[Hnone _] | (a & b & Heq & Hb & ->)].
  - rewrite all_chars_append in Hnone. simpl in Hnone.
    rewrite andb_false_r in Hnone. discriminate.
  - replace (Z.to_nat (0 + Z.of_nat (String.length a) + 1))
      with (String.length a + 1) by lia.
    rewrite Heq, drop_append_more. simpl.
    clear - Heq Hb Hname. revert a Heq.
    induction dir as [|x dir IH]; intros a Heq.
    + simpl in Heq. destruct a as [|y a]; simpl in Heq.
      * now injection Heq as <-.
      * injection Heq as <- ->. rewrite all_chars_append in Hname.
        simpl in Hname. rewrite andb_false_r in Hname. discriminate.
    + destruct a as [|y a]; simpl in Heq.
      * injection Heq as -> Hrest.
        assert (Hall : all_chars (fun x => negb (Ascii.eqb x "/")) b = true)
          by exact Hb.
        rewrite <- Hrest, all_chars_append in Hall. simpl in Hall.
        rewrite andb_false_r in Hall. discriminate.
      * injection Heq as -> Hrest. exact (IH a Hrest).
Qed.

Lemma uint_chars d :
  all_chars (fun x => negb (Ascii.eqb x "/")) (NilEmpty.string_of_uint d) = true.
Proof. induction d; simpl; auto. Qed.

Lemma str_int_chars n :
  all_chars (fun x => negb (Ascii.eqb x "/")) (str_int n) = true.
Proof.
  unfold str_int, NilZero.string_of_int, NilZero.string_of_uint.
  destruct (Z.to_int n) as [d|d]; destruct d; try reflexivity;
    simpl; apply uint_chars.
Qed.

Lemma substring_suffix (a b : string) :
  substring (String.length a) (String.length b) (a ++ b) = b.
Proof.
  induction a as [|c a IH]; simpl; [| exact IH].
  induction b as [|c b IHb]; simpl; [reflexivity | now rewrite IHb].
Qed.

Lemma endswith_append (a b : string) : endswith (a ++ b) b = true.
Proof.
  unfold endswith. rewrite length_append.
  replace (String.length a + String.length b - String.length b)
    with (String.length a) by lia.
  rewrite substring_suffix, String.eqb_refl.
  destruct (Nat.leb_spec (String.length b) (String.length a + String.length b));
    [reflexivity | lia].
Qed.

Lemma lower_append (a b : string) : lower (a ++ b) = lower a ++ lower b.
Proof.
  unfold lower. induction a as [|c a IH]; simpl; [reflexivity | now rewrite IH].
Qed.

End NameFacts.

(** ** The URL classifier *)

Module ClassifierFacts.
Import StrFacts NameFacts.





Lemma split_colon_inv (url pre post : string) :
  split_colon url = Some (pre, post) -> url = pre ++ ":" ++ post.
Proof.
  revert pre post. induction url as [|c url IH]; intros pre post; simpl.
  - discriminate.
  - destruct (Ascii.eqb_spec c ":") as [->|Hc].
    + intros H. injection H as <- <-. reflexivity.
    + destruct (split_colon url) as [[pre' post']|]; [| discriminate].
      intros H. injection H as <- <-. simpl. f_equal. now apply IH.
Qed.

Lemma strip_scheme_suffix (url : string) :
  exists a, url = a ++ strip_scheme url.
Proof.
  unfold strip_scheme.
  destruct (split_colon url) as [[pre post]|] eqn:Hs; [| now exists ""].
  destruct pre as [|c0 pre']; [now exists "" |].
  destruct (is_alpha c0 && all_chars is_scheme_char (String c0 pre'));
    [| now exists ""].
  exists (String c0 pre' ++ ":"). rewrite append_assoc.
  now apply split_colon_inv.
Qed.

Lemma until_delim_prefix (s : string) : exists b, s = until_delim s ++ b.
Proof.
  induction s as [|c s [b IH]]; simpl; [now exists "" |].
  destruct (Ascii.eqb c "/" || Ascii.eqb c "?" || Ascii.eqb c "#").
  - now exists (String c s).
  - exists b. simpl. now rewrite <- IH.
Qed.

Lemma lstrip_plain s : plain_url s = true -> lstrip is_c0_or_space s = s.
Proof.
  destruct s as [|c s]; [reflexivity |]. cbn [plain_url all_chars lstrip].
  intros H. apply andb_prop in H. destruct H as [Hc _].
  unfold url_char in Hc. apply andb_prop in Hc. destruct Hc as [Hc _].
  apply andb_prop in Hc. destruct Hc as [Hc _]. apply Nat.leb_le in Hc.
  unfold is_c0_or_space.
  destruct (Nat.leb_spec (nat_of_ascii c) 32); [lia | reflexivity].
Qed.

Lemma url_char_kept c : url_char c = true -> is_unsafe c = false.
Proof. destruct c as [[] [] [] [] [] [] [] []]; reflexivity || discriminate. Qed.

Lemma remove_chars_none f s :
  all_chars (fun c => negb (f c)) s = true -> remove_chars f s = s.
Proof.
  induction s as [|c s IH]; [reflexivity |]. cbn [all_chars remove_chars].
  intros H. apply andb_prop in H. destruct H as [Hc Hs].
  apply negb_true_iff in Hc. now rewrite Hc, IH.
Qed.

Lemma remove_chars_append f a b :
  remove_chars f (a ++ b) = remove_chars f a ++ remove_chars f b.
Proof.
  induction a as [|c a IH]; [reflexivity |]. simpl.
  destruct (f c); simpl; now rewrite IH.
Qed.

(** [urlsplit] leaves a plain URL as it is. *)
Lemma clean_plain s : plain_url s = true -> clean s = s.
Proof.
  intros H. unfold clean. rewrite (lstrip_plain s H).
  apply remove_chars_none. refine (all_chars_impl _ _ _ _ H).
  intros c Hc. now rewrite (url_char_kept c Hc).
Qed.

Lemma url_char_lower c : url_char c = true -> url_char (lower_char c) = true.
Proof. destruct c as [[] [] [] [] [] [] [] []]; reflexivity || discriminate. Qed.

Lemma plain_lower s : plain_url s = true -> plain_url (lower s) = true.
Proof.
  unfold plain_url, lower. induction s as [|c s IH]; [reflexivity |].
  cbn [all_chars map_chars]. intros H. apply andb_prop in H.
  destruct H as [Hc Hs]. now rewrite (url_char_lower c Hc), IH.
Qed.

(** The network location is a contiguous part of the cleaned URL. *)
Lemma netloc_within (url : string) :
  exists a b, clean url = a ++ netloc url ++ b.
Proof.
  unfold netloc. destruct (strip_scheme_suffix (clean url)) as [a Ha].
  destruct (startswith (strip_scheme (clean url)) "//") eqn:Hp;
    [| exists "", (clean url); reflexivity].
  apply prefix_inv in Hp. destruct Hp as [rest Hr].
  rewrite Hr in *. simpl.
  destruct (until_delim_prefix rest) as [b Hb].
  exists (a ++ "//"), b. rewrite append_assoc. simpl.
  rewrite <- Hb. exact Ha.
Qed.

Lemma contains_netloc (needle url : string) :
  plain_url url = true ->
  contains needle (netloc url) = true -> contains needle url = true.
Proof.
  intros Hplain H. destruct (netloc_within url) as (a & b & Hu).
  rewrite (clean_plain url Hplain) in Hu. rewrite Hu.
  now apply contains_within.
Qed.


Ltac split_on_contains h :=
  repeat (try reflexivity;
          match goal with
          | |- context [contains ?a h] => destruct (contains a h); simpl
          end).

(** The tag is the first-match lookup of the host in the platform table. *)
Lemma get_platform_type_table (url : string) :
  get_platform_type url = first_match platform_table (netloc (lower url)).
Proof.
  unfold get_platform_type, first_match, platform_table.
  set (h := netloc (lower url)). simpl. split_on_contains h.
Qed.


Lemma instagram_tag_in_url (url : string) :
  plain_url url = true ->
  get_platform_type url = instagram ->
  contains "instagram.com" (lower url) = true.
Proof.
  intros Hplain H. apply contains_netloc; [now apply plain_lower |].
  revert H. unfold get_platform_type.
  set (h := netloc (lower url)).
  repeat match goal with
         | |- context [contains ?a h] => destruct (contains a h); simpl
         end; congruence.
Qed.


End ClassifierFacts.

(** ** The file system *)

Module FsFacts.

Lemma lookup_store_eq p d fs : lookup p (store p d fs) = Some d.
Proof.
  induction fs as [|[q old] fs IH]; simpl.
  - now rewrite String.eqb_refl.
  - destruct (String.eqb p q) eqn:Hpq; simpl; rewrite Hpq; auto.
Qed.

Lemma lookup_store_neq p q d fs :
  p <> q -> lookup q (store p d fs) = lookup q fs.
Proof.
  intros Hne. induction fs as [|[r old] fs IH]; simpl.
  - destruct (String.eqb_spec q p); [congruence | reflexivity].
  - destruct (String.eqb_spec p r) as [->|Hpr]; simpl.
    + destruct (String.eqb_spec q r); [congruence | reflexivity].
    + destruct (String.eqb q r); auto.
Qed.

Lemma store_store p d d' fs : store p d (store p d' fs) = store p d fs.
Proof.
  induction fs as [|[q old] fs IH]; simpl.
  - now rewrite String.eqb_refl.
  - destruct (String.eqb p q) eqn:Hpq; simpl; rewrite Hpq; congruence.
Qed.

Lemma existsb_store (f : string -> bool) p d fs :
  existsb (fun e => f (fst e)) fs = true ->
  existsb (fun e => f (fst e)) (store p d fs) = true.
Proof.
  induction fs as [|[q old] fs IH]; simpl; [discriminate |].
  destruct (String.eqb p q); simpl; [auto |].
  destruct (f q); simpl; auto.
Qed.

Lemma existsb_lookup (f : string -> bool) p d fs :
  lookup p fs = Some d -> f p = true ->
  existsb (fun e => f (fst e)) fs = true.
Proof.
  intros Hl Hf. induction fs as [|[q old] fs IH]; simpl in *; [discriminate |].
  destruct (String.eqb_spec p q) as [<-|_].
  - now rewrite Hf.
  - rewrite (IH Hl). apply orb_true_r.
Qed.

(** Writing a file removes no directory. *)
Lemma is_dir_store d p data w :
  is_dir d w = true -> is_dir d (set_files w (store p data (files w))) = true.
Proof.
  unfold is_dir. cbn [set_files files dirs]. intros H.
  apply orb_true_iff in H. destruct H as [H | H]; [now rewrite H |].
  rewrite (existsb_store (under d) p data (files w) H). apply orb_true_r.
Qed.

Lemma take_append (a b : string) : take (String.length a) (a ++ b) = a.
Proof. induction a as [|c a IH]; simpl; [now destruct b | now rewrite IH]. Qed.

Lemma take_append_le n (a b : string) :
  n <= String.length a -> take n (a ++ b) = take n a.
Proof.
  revert a. induction n as [|n IH]; intros [|c a] H; simpl in *;
    try reflexivity; try lia.
  now rewrite IH by lia.
Qed.

Lemma rfind_from_append c a b :
  forall i acc,
    rfind_from c (a ++ b) i acc
    = rfind_from c b (i + Z.of_nat (String.length a)) (rfind_from c a i acc).
Proof.
  induction a as [|x a IH]; intros i acc; simpl.
  - now rewrite Z.add_0_r.
  - rewrite IH. f_equal. lia.
Qed.

Lemma rfind_from_none c b :
  all_chars (fun x => negb (Ascii.eqb x c)) b = true ->
  forall i acc, rfind_from c b i acc = acc.
Proof.
  induction b as [|x b IH]; intros H i acc; simpl in *; [reflexivity |].
  apply andb_prop in H. destruct H as [Hx Hb]. apply negb_true_iff in Hx.
  rewrite Hx. now apply IH.
Qed.

Lemma rfind_bound c a : (-1 <= rfind c a < Z.of_nat (String.length a))%Z.
Proof.
  unfold rfind.
  destruct (NameFacts.rfind_from_spec c a 0 (-1))
    as [[_ ->] | (x & y & -> & _ & ->)].
  - lia.
  - rewrite StrFacts.length_append. simpl. lia.
Qed.

(** What follows the last slash does not change the directory. *)
Lemma parent_append_plain a b :
  all_chars (fun x => negb (Ascii.eqb x "/")) b = true ->
  parent (a ++ b) = parent a.
Proof.
  intros Hb. unfold parent, rfind.
  rewrite rfind_from_append, (rfind_from_none _ _ Hb).
  apply take_append_le. pose proof (rfind_bound "/" a). unfold rfind in *. lia.
Qed.

Lemma parent_spec p : parent p = "" \/ under (parent p) p = true.
Proof.
  unfold parent, rfind.
  destruct (NameFacts.rfind_from_spec "/" p 0 (-1))
    as [[_ ->] | (a & b & -> & _ & ->)].
  - left. now destruct p.
  - right. replace (Z.to_nat (0 + Z.of_nat (String.length a)))
      with (String.length a) by lia.
    rewrite take_append. unfold under, startswith.
    change (a ++ String "/" b) with (a ++ "/" ++ b).
    rewrite <- StrFacts.append_assoc. apply StrFacts.prefix_append.
Qed.

(** The directory of a file that is there is there. *)
Lemma is_dir_parent p data w :
  lookup p (files w) = Some data -> is_dir (parent p) w = true.
Proof.
  intros Hp. unfold is_dir. destruct (parent_spec p) as [-> | Hu].
  - reflexivity.
  - rewrite (existsb_lookup (under (parent p)) p data (files w) Hp Hu).
    apply orb_true_r.
Qed.

Section WithEnv.
Variable E : env.

Lemma write_file_ok p d w :
  is_dir (parent p) w = true ->
  mem p (locked E) = false ->
  write_file E p d w = (set_files w (store p d (files w)), Ok tt).
Proof.
  intros Hd Hp. unfold write_file, bind, open_wb, write. rewrite Hd, Hp. simpl.
  rewrite lookup_store_eq. simpl. unfold set_files. simpl.
  now rewrite store_store.
Qed.

Lemma write_file_locked p d w :
  is_dir (parent p) w = true ->
  mem p (locked E) = true -> write_file E p d w = (w, Raise PermissionError).
Proof.
  intros Hd Hp. unfold write_file, bind, open_wb. now rewrite Hd, Hp.
Qed.

(** [write_file] writes the whole file, or raises and writes nothing. *)
Lemma write_file_cases p d w :
  write_file E p d w = (set_files w (store p d (files w)), Ok tt)
  \/ exists e, write_file E p d w = (w, Raise e).
Proof.
  destruct (is_dir (parent p) w) eqn:Hd.
  - destruct (mem p (locked E)) eqn:Hp.
    + right. eexists. now apply write_file_locked.
    + left. now apply write_file_ok.
  - right. eexists. unfold write_file, bind, open_wb. now rewrite Hd.
Qed.

(** Whatever [write_file] does, it touches no other path. *)
Lemma write_file_frame p d w w' r q :
  write_file E p d w = (w', r) -> q <> p ->
  lookup q (files w') = lookup q (files w)
  /\ dirs w' = dirs w /\ trace w' = trace w.
Proof.
  intros H Hq. destruct (write_file_cases p d w) as [Hw | [e Hw]];
    rewrite Hw in H; injection H as <- _; auto.
  simpl. rewrite lookup_store_neq by congruence. auto.
Qed.

(** A successful [write_file] leaves the file with the data written. *)
Lemma write_file_done p d w w' :
  write_file E p d w = (w', Ok tt) ->
  w' = set_files w (store p d (files w)).
Proof.
  intros H. destruct (write_file_cases p d w) as [Hw | [e Hw]];
    rewrite Hw in H; [now injection H as <- | discriminate].
Qed.

Lemma unlink_tree_lookup_none d p fs :
  lookup p fs = None -> lookup p (fst (unlink_tree E d fs)) = None.
Proof.
  induction fs as [|[q data] fs IH]; simpl; [reflexivity |].
  destruct (String.eqb p q) eqn:Hpq; [discriminate |]. intros H.
  destruct (under d q).
  - destruct (mem q (locked E)); simpl; [now rewrite Hpq | auto].
  - destruct (unlink_tree E d fs) as [rest ok]. simpl in *.
    rewrite Hpq. auto.
Qed.

(** A removal that failed fails again at the same file, removing nothing. *)
Lemma unlink_tree_fail_again d fs fs' :
  unlink_tree E d fs = (fs', false) -> unlink_tree E d fs' = (fs', false).
Proof.
  revert fs'. induction fs as [|[q data] fs IH]; intros fs'; simpl.
  - discriminate.
  - destruct (under d q) eqn:Hu.
    + destruct (mem q (locked E)) eqn:Hl.
      * intros H. injection H as <-. simpl. now rewrite Hu, Hl.
      * apply IH.
    + destruct (unlink_tree E d fs) as [rest ok].
      intros H. injection H as <- ->. simpl. rewrite Hu.
      now rewrite (IH rest eq_refl).
Qed.

Lemma mem_filter_removed d ds :
  mem d (filter (fun q => negb (String.eqb q d || under d q)) ds) = false.
Proof.
  unfold mem. induction ds as [|q ds IH]; simpl; [reflexivity |].
  destruct (String.eqb_spec q d) as [->|Hqd]; simpl; [exact IH |].
  destruct (under d q); simpl; [exact IH |].
  destruct (String.eqb_spec d q); [congruence | exact IH].
Qed.

Lemma cleanup_all_returns self w : snd (cleanup_all E self w) = Ok tt.
Proof.
  unfold cleanup_all, try_except, rmtree, ret.
  destruct (exists_ (temp_dir self) w); [| reflexivity].
  destruct (is_file (temp_dir self) w); [reflexivity |].
  destruct (unlink_tree E (temp_dir self) (files w)) as [fs' []]; reflexivity.
Qed.

Lemma cleanup_all_absent self w :
  exists_ (temp_dir self) w = false -> cleanup_all E self w = (w, Ok tt).
Proof. intros H. unfold cleanup_all, try_except. now rewrite H. Qed.

Lemma cleanup_all_twice self w :
  cleanup_all E self (fst (cleanup_all E self w))
  = (fst (cleanup_all E self w), Ok tt).
Proof.
  destruct (exists_ (temp_dir self) w) eqn:Hex.
  2:{ rewrite (cleanup_all_absent self w Hex). simpl.
      now apply cleanup_all_absent. }
  unfold cleanup_all at 2 3. unfold try_except, rmtree, ret. rewrite Hex.
  destruct (is_file (temp_dir self) w) eqn:Hf.
  - simpl. unfold cleanup_all, try_except, rmtree, ret. now rewrite Hex, Hf.
  - assert (Hnone : lookup (temp_dir self) (files w) = None).
    { unfold is_file in Hf.
      destruct (lookup (temp_dir self) (files w)); [discriminate | auto]. }
    pose proof (unlink_tree_lookup_none (temp_dir self) _ _ Hnone) as Hl.
    destruct (unlink_tree E (temp_dir self) (files w)) as [fs' ok] eqn:Hu.
    simpl in Hl. destruct ok; simpl.
    + apply cleanup_all_absent. unfold exists_, is_file. simpl.
      now rewrite Hl, mem_filter_removed.
    + unfold cleanup_all, try_except, rmtree, ret, exists_, is_file. simpl.
      rewrite Hl. simpl. unfold exists_, is_file in Hex. rewrite Hnone in Hex.
      simpl in Hex. rewrite Hex.
      now rewrite (unlink_tree_fail_again _ _ _ Hu).
Qed.

End WithEnv.
End FsFacts.

(** ** Part names *)

Module PathFacts.
Import StrFacts FsFacts.

Lemma of_uint_pad3 d : N.of_uint (pad3 d) = N.of_uint d.
Proof. unfold pad3. destruct (Decimal.nb_digits d) as [|[|[|n]]]; reflexivity. Qed.

Lemma format_03d_inj a b : format_03d a = format_03d b -> a = b.
Proof.
  unfold format_03d. intros H.
  apply (f_equal NilEmpty.uint_of_string) in H.
  rewrite !NilEmpty.usu in H. injection H as H.
  apply (f_equal N.of_uint) in H.
  now rewrite !of_uint_pad3, !DecimalN.Unsigned.of_to in H.
Qed.

Lemma chunk_path_inj base ext a b :
  chunk_path base a ext = chunk_path base b ext -> a = b.
Proof.
  unfold chunk_path. intros H.
  apply append_inv_l in H. apply append_inv_l in H.
  apply append_inv_r in H. now apply format_03d_inj.
Qed.

Lemma splitext_join p : fst (splitext p) ++ snd (splitext p) = p.
Proof.
  unfold splitext.
  destruct (rfind "/" p <? rfind "." p)%Z; simpl; [| apply append_nil_r].
  destruct (all_chars _ _); simpl; [apply append_nil_r | apply take_drop].
Qed.

Lemma all_chars_drop f n s :
  all_chars f s = true -> all_chars f (drop n s) = true.
Proof.
  revert s. induction n as [|n IH]; intros [|c s] H; simpl in *; auto.
  apply andb_prop in H. destruct H as [_ H]. auto.
Qed.

(** The extension [splitext] splits off has no slash in it. *)
Lemma splitext_ext_plain p :
  all_chars (fun x => negb (Ascii.eqb x "/")) (snd (splitext p)) = true.
Proof.
  unfold splitext, rfind.
  destruct (NameFacts.rfind_from_spec "/" p 0 (-1))
    as [[Hnone ->] | (a & b & -> & Hb & ->)].
  - destruct (-1 <? _)%Z; [| reflexivity].
    destruct (all_chars (Ascii.eqb ".") _); [reflexivity |].
    now apply all_chars_drop.
  - destruct (Z.ltb_spec (0 + Z.of_nat (String.length a))
                (rfind_from "." (a ++ String "/" b) 0 (-1))) as [Hlt|_];
      [| reflexivity].
    destruct (all_chars (Ascii.eqb ".") _); [reflexivity |]. cbn [snd].
    set (dot := rfind_from "." (a ++ String "/" b) 0 (-1)) in *.
    replace (Z.to_nat dot)
      with (String.length a + S (Z.to_nat dot - String.length a - 1)) by lia.
    rewrite NameFacts.drop_append_more. cbn [drop].
    now apply all_chars_drop.
Qed.

(** The part files go where the file that is split is. *)
Lemma parent_chunk_path p k :
  parent (chunk_path (fst (splitext p)) k (snd (splitext p))) = parent p.
Proof.
  pose proof (splitext_ext_plain p) as Hext.
  rewrite <- (splitext_join p) at 3. unfold chunk_path.
  rewrite !parent_append_plain; auto.
  rewrite !NameFacts.all_chars_append, Hext. unfold format_03d.
  now rewrite NameFacts.uint_chars.
Qed.

Lemma chunk_path_not_source p k :
  chunk_path (fst (splitext p)) k (snd (splitext p)) <> p.
Proof.
  intros H. apply (f_equal String.length) in H.
  rewrite <- (splitext_join p) in H at 3.
  unfold chunk_path in H. rewrite !length_append in H. simpl in H. lia.
Qed.

End PathFacts.

(** ** Splitting *)

Module SplitFacts.
Import StrFacts PathFacts FsFacts.

Section WithEnv.
Variable E : env.

Lemma split_loop_step base ext c source k chunks w :
  split_loop E base ext c source k chunks w =
  match read E c source with
  | Raise e => (w, Raise e)
  | Ok ([], _) => (w, Ok chunks)
  | Ok (chunk_data, source') =>
      match write_file E (chunk_path base k ext) chunk_data w with
      | (w', Raise e) => (w', Raise e)
      | (w', Ok _) =>
          split_loop E base ext c source' (N.succ k)
            (chunks ++ [chunk_path base k ext]) w'
      end
  end.
Proof.
  rewrite split_loop_unfold_eq. unfold split_loop_unfold.
  generalize (Equations.Prop.Logic.inspect (read E c source)).
  intros [[[[|b d] s']|e] H]; simpl; rewrite H; reflexivity.
Qed.

Lemma buffer_ok_bound n : buffer_ok E n = true -> (n < 2 ^ 63)%Z.
Proof.
  unfold buffer_ok. intros H. apply andb_prop in H. destruct H as [H _].
  now apply Z.ltb_lt.
Qed.


Lemma read_positive c source :
  (0 < c)%Z -> buffer_ok E c = true ->
  read E c source
  = Ok (firstn (Z.to_nat c) source, skipn (Z.to_nat c) source).
Proof.
  intros Hc Hbuf. pose proof (buffer_ok_bound c Hbuf) as Hlt. unfold read.
  destruct (Z.ltb_spec c (-1)); [lia |].
  destruct (Z.leb_spec (2 ^ 63) c); [lia |].
  destruct (Z.eqb_spec c (-1)); [lia |]. now rewrite Hbuf.
Qed.




Lemma read_shrinks c source b d s' :
  read E c source = Ok (b :: d, s') -> List.length s' < List.length source.
Proof.
  unfold read.
  destruct (c <? -1)%Z; [discriminate |].
  destruct (2 ^ 63 <=? c)%Z; [discriminate |].
  destruct (c =? -1)%Z.
  - destruct (buffer_ok E _); [| discriminate].
    intros H; injection H as Hc <-. subst source. simpl. lia.
  - destruct (buffer_ok E c); [| discriminate].
    intros H; injection H as Hc <-.
    destruct (Z.to_nat c) as [|m]; [discriminate |].
    destruct source as [|b0 source]; [discriminate |].
    simpl. pose proof (length_skipn m source). lia.
Qed.

(** A [read] that returns nothing was made at the end of the source or with
    a size of 0. *)
Lemma read_nothing c source s' :
  read E c source = Ok ([], s') -> source = [] \/ c = 0%Z.
Proof.
  unfold read.
  destruct (Z.ltb_spec c (-1)) as [|Hge]; [discriminate |].
  destruct (2 ^ 63 <=? c)%Z; [discriminate |].
  destruct (Z.eqb_spec c (-1)) as [|Hne].
  - destruct (buffer_ok E _); [| discriminate].
    intros H; injection H as -> _. now left.
  - destruct (buffer_ok E c); [| discriminate].
    intros H; injection H as H _.
    destruct source as [|b0 source]; [now left | right].
    destruct (Z.to_nat c) eqn:Hc; [lia | discriminate].
Qed.

(** Whatever the outcome, the loop started at index [k] touches only part
    files of index [k] and above. *)
Lemma split_loop_frame base ext c n :
  forall source, List.length source <= n ->
  forall k chunks w w' r,
    split_loop E base ext c source k chunks w = (w', r) ->
    dirs w' = dirs w /\ trace w' = trace w
    /\ forall q, (forall j, (k <= j)%N -> q <> chunk_path base j ext) ->
                 lookup q (files w') = lookup q (files w).
Proof.
  induction n as [|n IH]; intros source Hn k chunks w w' r;
    rewrite split_loop_step;
    destruct (read E c source) as [[[|b d] s']|e] eqn:Hr;
    try (intros H; injection H as <- _; now auto).
  - apply read_shrinks in Hr. lia.
  - apply read_shrinks in Hr.
    destruct (write_file E (chunk_path base k ext) (b :: d) w) as [w1 [[]|e]] eqn:Hw.
    + intros H. apply IH in H; [| lia]. destruct H as (Hd & Ht & Hf).
      assert (Hq : forall q, q <> chunk_path base k ext ->
                 lookup q (files w1) = lookup q (files w)
                 /\ dirs w1 = dirs w /\ trace w1 = trace w)
        by (intros q; apply (write_file_frame _ _ _ _ _ _ _ Hw)).
      destruct (String.eqb_spec (chunk_path base (N.succ k) ext)
                                (chunk_path base k ext)) as [He|Hne].
      { apply chunk_path_inj in He. lia. }
      destruct (Hq _ Hne) as (_ & Hd1 & Ht1).
      repeat split; [congruence | congruence |].
      intros q Hk. rewrite Hf by (intros j Hj; apply Hk; lia).
      apply Hq, Hk. lia.
    + intros H. injection H as <- _.
      destruct (String.eqb_spec (chunk_path base (N.succ k) ext)
                                (chunk_path base k ext)) as [He|Hne].
      { apply chunk_path_inj in He. lia. }
      destruct (write_file_frame _ _ _ _ _ _ _ Hw Hne) as (_ & Hd1 & Ht1).
      repeat split; auto. intros q Hk.
      apply (write_file_frame _ _ _ _ _ _ _ Hw). apply Hk. lia.
Qed.




Lemma ceil_div_pos s c : (0 < c)%Z -> (0 < s)%Z -> (0 < ceil_div s c)%Z.
Proof.
  intros Hc Hs. unfold ceil_div. apply Z.div_str_pos. lia.
Qed.


Lemma in_part_paths base ext k n q :
  In q (part_paths base ext k n) ->
  exists j, (k <= j)%N /\ q = chunk_path base j ext.
Proof.
  unfold part_paths. rewrite in_map_iff. intros (i & <- & _).
  exists (k + N.of_nat i)%N. split; [lia | reflexivity].
Qed.

Lemma read_files_frame ps w w' :
  (forall q, In q ps -> lookup q (files w') = lookup q (files w)) ->
  read_files ps w' = read_files ps w.
Proof.
  induction ps as [|p ps IH]; simpl; intros H; [reflexivity |].
  rewrite (H p) by auto. rewrite IH by auto. reflexivity.
Qed.



Lemma split_large_file_try_big p c w data :
  lookup p (files w) = Some data ->
  (MAX_FILE_SIZE < Z.of_nat (List.length data))%Z ->
  split_large_file_try E p c w
  = split_loop E (fst (splitext p)) (snd (splitext p)) c data 0 [] w.
Proof.
  intros Hp Hs. unfold split_large_file_try, bind, getsize, open_rb.
  rewrite Hp. destruct (Z.leb_spec (Z.of_nat (List.length data)) MAX_FILE_SIZE);
    [lia |]. now rewrite Hp.
Qed.


Lemma split_large_file_returns p c w :
  exists w' paths, split_large_file E p c w = (w', Ok paths).
Proof.
  unfold split_large_file, try_except, ret.
  destruct (split_large_file_try E p c w) as [w' [paths|e]]; eauto.
Qed.

Lemma split_large_file_try_frame p c w w' r :
  split_large_file_try E p c w = (w', r) ->
  lookup p (files w') = lookup p (files w)
  /\ dirs w' = dirs w /\ trace w' = trace w.
Proof.
  unfold split_large_file_try, bind, getsize, open_rb.
  destruct (lookup p (files w)) as [data|] eqn:Hp.
  2:{ intros H. injection H as <- _. auto. }
  destruct (Z.of_nat (List.length data) <=? MAX_FILE_SIZE)%Z.
  { intros H. injection H as <- _. auto. }
  rewrite Hp. intros H.
  destruct (split_loop_frame _ _ _ _ _ (le_n _) _ _ _ _ _ H) as (Hd & Ht & Hf).
  rewrite Hf, Hp; auto. intros j _. apply not_eq_sym, chunk_path_not_source.
Qed.

Lemma split_large_file_try_frame_others p c w w' r :
  split_large_file_try E p c w = (w', r) ->
  forall q, (forall j, q <> chunk_path (fst (splitext p)) j (snd (splitext p))) ->
            lookup q (files w') = lookup q (files w).
Proof.
  unfold split_large_file_try, bind, getsize, open_rb.
  destruct (lookup p (files w)) as [data|] eqn:Hp.
  2:{ intros H. now injection H as <- _. }
  destruct (Z.of_nat (List.length data) <=? MAX_FILE_SIZE)%Z.
  { intros H. now injection H as <- _. }
  rewrite Hp. intros H q Hq.
  destruct (split_loop_frame _ _ _ _ _ (le_n _) _ _ _ _ _ H) as (_ & _ & Hf).
  apply Hf. auto.
Qed.

(** A split whose second write fails leaves the first part behind. *)
Lemma split_large_file_try_second_write p c w data :
  lookup p (files w) = Some data ->
  (MAX_FILE_SIZE < Z.of_nat (List.length data))%Z ->
  (0 < c < Z.of_nat (List.length data))%Z ->
  buffer_ok E c = true ->
  mem (chunk_path (fst (splitext p)) 0 (snd (splitext p))) (locked E) = false ->
  mem (chunk_path (fst (splitext p)) 1 (snd (splitext p))) (locked E) = true ->
  split_large_file_try E p c w
  = (set_files w (store (chunk_path (fst (splitext p)) 0 (snd (splitext p)))
                        (firstn (Z.to_nat c) data) (files w)),
     Raise PermissionError).
Proof.
  intros Hp Hs Hc Hbuf H0 H1.
  pose proof (is_dir_parent p data w Hp) as Hdir.
  rewrite (split_large_file_try_big p c w data Hp Hs).
  rewrite split_loop_step, read_positive by (lia || exact Hbuf).
  destruct (firstn (Z.to_nat c) data) as [|b d] eqn:Hfst.
  { apply (f_equal (@List.length byte)) in Hfst.
    rewrite length_firstn in Hfst. simpl in Hfst. lia. }
  rewrite write_file_ok; [| now rewrite parent_chunk_path | exact H0].
  rewrite split_loop_step, read_positive by (lia || exact Hbuf).
  destruct (firstn (Z.to_nat c) (skipn (Z.to_nat c) data)) as [|b' d'] eqn:Hsnd.
  { apply (f_equal (@List.length byte)) in Hsnd.
    rewrite length_firstn, length_skipn in Hsnd. simpl in Hsnd. lia. }
  change (N.succ 0) with 1%N.
  rewrite write_file_locked; [reflexivity | | exact H1].
  rewrite parent_chunk_path. now apply is_dir_store.
Qed.



End WithEnv.
End SplitFacts.
(** ** The acquisition chain *)

Module ChainFacts.
Import StrFacts ClassifierFacts FsFacts.

Lemma drop_append (a b : string) : drop (String.length a) (a ++ b) = b.
Proof. induction a as [|c a IH]; simpl; auto. Qed.

Lemma strategy_eqb_eq a b : strategy_eqb a b = true -> a = b.
Proof.
  destruct a as [[]|[]], b as [[]|[]]; simpl; congruence.
Qed.

Lemma strategy_eqb_refl a : strategy_eqb a a = true.
Proof. destruct a as [[]|[]]; reflexivity. Qed.



(** A run in which something yielded a file ends with that invocation. *)
Lemma is_run_success_last order :
  forall evs, is_run order evs = true -> existsb succeeded evs = true ->
              exists pre e, evs = (pre ++ [e])%list /\ succeeded e = true.
Proof.
  induction order as [|s order IH]; intros [|[s' r] evs] Hrun Hany;
    try discriminate.
  simpl in *. apply andb_prop in Hrun. destruct Hrun as [_ Hrun].
  destruct (truthy r) eqn:Hr.
  - destruct evs; [| discriminate]. exists [], (Attempt s' r). auto.
  - simpl in Hany. destruct (IH evs Hrun Hany) as (pre & e & -> & He).
    exists (Attempt s' r :: pre), e. auto.
Qed.

Lemma is_run_nil evs : is_run [] evs = true -> evs = [].
Proof. destruct evs; [reflexivity | discriminate]. Qed.

Lemma is_run_cons s order evs :
  is_run (s :: order) evs = true ->
  exists r evs',
    evs = Attempt s r :: evs'
    /\ if truthy r then evs' = [] else is_run order evs' = true.
Proof.
  destruct evs as [|[s' r] evs]; [discriminate |]. simpl. intros H.
  apply andb_prop in H. destruct H as [Hs H].
  apply strategy_eqb_eq in Hs. subst s'. exists r, evs.
  split; [reflexivity |].
  destruct (truthy r); [destruct evs; [reflexivity | discriminate] | exact H].
Qed.

Lemma is_run_app o1 o2 :
  forall evs1 evs2,
    is_run o1 evs1 = true -> existsb succeeded evs1 = false ->
    is_run o2 evs2 = true -> is_run (o1 ++ o2) (evs1 ++ evs2) = true.
Proof.
  induction o1 as [|s o1 IH]; intros [|[s' r] evs1] evs2 H1 Hall H2;
    try discriminate; [exact H2 |].
  simpl in *. apply andb_prop in H1. destruct H1 as [Hs H1].
  apply orb_false_elim in Hall. destruct Hall as [Hr Hall].
  rewrite Hr in *. rewrite Hs. simpl. auto.
Qed.

Lemma is_run_stop o1 o2 :
  forall evs, is_run o1 evs = true -> existsb succeeded evs = true ->
              is_run (o1 ++ o2) evs = true.
Proof.
  induction o1 as [|s o1 IH]; intros [|[s' r] evs] H1 Hany;
    try discriminate.
  simpl in *. apply andb_prop in H1. destruct H1 as [Hs H1].
  rewrite Hs. simpl. destruct (truthy r); [exact H1 |]. simpl in Hany. auto.
Qed.

Lemma final_result_app evs e :
  final_result (evs ++ [e]) = returned_of e.
Proof.
  unfold final_result. rewrite map_app. simpl. apply last_last.
Qed.

Lemma run_of_nil : run_of [] [] None.
Proof. unfold run_of. simpl. intuition discriminate. Qed.

Lemma run_of_single s r : run_of [s] [Attempt s r] r.
Proof.
  unfold run_of. simpl. rewrite strategy_eqb_refl, orb_false_r.
  destruct (truthy r); auto.
Qed.

Lemma run_of_app o1 o2 evs1 evs2 r1 r2 :
  run_of o1 evs1 r1 -> truthy r1 = false -> run_of o2 evs2 r2 ->
  run_of (o1 ++ o2) (evs1 ++ evs2) r2.
Proof.
  intros (H1 & Hb1 & _) Hr1 (H2 & Hb2 & Hf2). rewrite Hr1 in Hb1.
  repeat split.
  - now apply is_run_app.
  - now rewrite existsb_app, <- Hb1.
  - intros Ht. specialize (Hf2 Ht). rewrite Ht in Hb2.
    destruct (is_run_success_last _ _ H2 (eq_sym Hb2)) as (pre & e & -> & _).
    rewrite final_result_app in Hf2.
    now rewrite app_assoc, final_result_app.
Qed.

Lemma run_of_stop o1 o2 evs r :
  run_of o1 evs r -> truthy r = true -> run_of (o1 ++ o2) evs r.
Proof.
  intros (H1 & Hb1 & Hf1) Hr. repeat split; auto.
  apply is_run_stop; congruence.
Qed.

Lemma run_of_failed o evs r r' :
  run_of o evs r -> truthy r = false -> truthy r' = false -> run_of o evs r'.
Proof.
  intros (H1 & Hb1 & _) Hr Hr'. repeat split; congruence.
Qed.

Lemma run_of_app_nil o evs r : run_of o evs r -> run_of (o ++ []) evs r.
Proof. now rewrite app_nil_r. Qed.

Section WithEnv.
Variable E : env.

Lemma entry_name_join d p name :
  entry_name d p = Some name -> join d name = p.
Proof.
  unfold entry_name, join.
  destruct (String.eqb d "") eqn:Hd; [discriminate |].
  set (pre := if endswith d "/" then d else d ++ "/").
  destruct (startswith p pre) eqn:Hp; [| discriminate].
  apply prefix_inv in Hp. destruct Hp as [b ->]. rewrite drop_append.
  destruct (String.eqb b "") eqn:Hb; [discriminate |].
  destruct (contains "/" b) eqn:Hc; [discriminate |].
  intros H. injection H as <-.
  assert (Hs : startswith b "/" = false).
  { destruct (startswith b "/") eqn:Hs; [| reflexivity].
    apply contains_prefix in Hs. congruence. }
  rewrite Hs. simpl. subst pre.
  destruct (endswith d "/"); [reflexivity | now rewrite append_assoc].
Qed.

(** Every subprocess strategy returns normally and records its invocation
    once. *)
Lemma download_with_tool_spec t exts url d w :
  exists w' r,
    download_with_tool E t exts url d w = (w', Ok r)
    /\ trace w' = (trace w ++ [Attempt (ByTool t) r])%list.
Proof.
  unfold download_with_tool, invoked, bind, try_except, run_version,
    run_download, ret.
  destruct (version_probe E t) as [rc| |];
    try (do 2 eexists; split; reflexivity).
  destruct (negb (rc =? 0)%Z);
    try (do 2 eexists; split; reflexivity).
  destruct (run_tool E t url d) as [rc'| |];
    try (do 2 eexists; split; reflexivity).
  destruct (rc' =? 0)%Z;
    try (do 2 eexists; split; reflexivity).
Qed.

Lemma write_chunks_spec p chunks :
  forall w, is_file p w = true ->
  exists w', write_chunks p chunks w = (w', Ok tt)
             /\ is_file p w' = true /\ trace w' = trace w.
Proof.
  induction chunks as [|chunk rest IH]; intros w Hp; simpl.
  - exists w. auto.
  - unfold bind.
    assert (Hw : exists w1, (match chunk with [] => ret tt | _ :: _ => write p chunk end) w
                            = (w1, Ok tt)
                            /\ is_file p w1 = true /\ trace w1 = trace w).
    { destruct chunk as [|b chunk]; [exists w; auto |].
      unfold write, is_file in *.
      destruct (lookup p (files w)) as [old|]; [| discriminate].
      eexists; repeat split. simpl. now rewrite lookup_store_eq. }
    destruct Hw as (w1 & -> & Hp1 & Ht1).
    destruct (IH w1 Hp1) as (w' & -> & Hp' & Ht'). exists w'.
    repeat split; congruence.
Qed.

(** [open(p, 'wb')] creates or truncates the file, or raises and changes
    nothing. *)
Lemma open_wb_cases p w :
  open_wb E p w = (set_files w (store p [] (files w)), Ok tt)
  \/ exists e, open_wb E p w = (w, Raise e).
Proof.
  unfold open_wb. destruct (is_dir (parent p) w); cbn [negb]; [| eauto].
  destruct (mem p (locked E)); eauto.
Qed.




Lemma download_with_yt_dlp_fallback_run url d w :
  exists w' r evs,
    download_with_yt_dlp_fallback E url d w = (w', Ok r)
    /\ trace w' = (trace w ++ evs)%list
    /\ run_of (fallback_order url) evs r.
Proof.
  unfold download_with_yt_dlp_fallback, download_with_ytdlp,
    download_with_youtubedl, download_with_instaloader, bind, ret.
  unfold fallback_order.
  change ([ByTool YtDlp; ByTool YoutubeDl] ++ ?x)%list
    with ([ByTool YtDlp] ++ ([ByTool YoutubeDl] ++ x))%list.
  destruct (download_with_tool_spec YtDlp VIDEO_EXTS url d w)
    as (w1 & r1 & -> & T1).
  pose proof (run_of_single (ByTool YtDlp) r1) as R1.
  destruct (truthy r1) eqn:H1.
  { exists w1, r1, [Attempt (ByTool YtDlp) r1].
    split; [reflexivity | split; [exact T1 |]].
    now apply run_of_stop. }
  destruct (download_with_tool_spec YoutubeDl VIDEO_EXTS url d w1)
    as (w2 & r2 & -> & T2).
  pose proof (run_of_single (ByTool YoutubeDl) r2) as R2.
  assert (T12 : trace w2 = (trace w ++ [Attempt (ByTool YtDlp) r1]
                              ++ [Attempt (ByTool YoutubeDl) r2])%list)
    by (rewrite T2, T1, <- app_assoc; reflexivity).
  destruct (truthy r2) eqn:H2.
  { exists w2, r2. eexists.
    split; [reflexivity | split; [exact T12 |]].
    apply (run_of_app _ _ _ _ _ _ R1 H1), run_of_stop; auto. }
  destruct (contains "instagram.com" (lower url)).
  2:{ exists w2, None. eexists.
      split; [reflexivity | split; [exact T12 |]].
      apply (run_of_app _ _ _ _ _ _ R1 H1), run_of_app_nil,
            (run_of_failed _ _ _ _ R2); auto. }
  destruct (download_with_tool_spec Instaloader INSTALOADER_EXTS url d w2)
    as (w3 & r3 & -> & T3).
  pose proof (run_of_single (ByTool Instaloader) r3) as R3.
  assert (T123 : trace w3 = (trace w ++ [Attempt (ByTool YtDlp) r1]
                               ++ [Attempt (ByTool YoutubeDl) r2]
                               ++ [Attempt (ByTool Instaloader) r3])%list)
    by (rewrite T3, T12, <- !app_assoc; reflexivity).
  destruct (truthy r3) eqn:H3.
  - exists w3, r3. eexists.
    split; [reflexivity | split; [exact T123 |]].
    apply (run_of_app _ _ _ _ _ _ R1 H1), (run_of_app _ _ _ _ _ _ R2 H2), R3.
  - exists w3, None. eexists.
    split; [reflexivity | split; [exact T123 |]].
    apply (run_of_app _ _ _ _ _ _ R1 H1), (run_of_app _ _ _ _ _ _ R2 H2),
          (run_of_failed _ _ _ _ R3); auto.
Qed.



End WithEnv.
End ChainFacts.
(** * The claims of the specification *)

Module Claims.
Import StrFacts ClassifierFacts FsFacts PathFacts SplitFacts ChainFacts.
Import Scenario.

(** ** URL classifier *)






(** ** Workspace cleanup *)

(** C6: [cleanup_all] never raises, whatever the removal runs into; it
    changes nothing when the directory tree is not there; and a second
    consecutive call changes nothing and does not raise either. *)
Theorem cleanup_all_idempotent (E : env) (self : downloader) (w : world) :
  snd (cleanup_all E self w) = Ok tt
  /\ (exists_ (temp_dir self) w = false -> cleanup_all E self w = (w, Ok tt))
  /\ cleanup_all E self (fst (cleanup_all E self w))
     = (fst (cleanup_all E self w), Ok tt).
Proof.
  split; [apply cleanup_all_returns |].
  split; [apply cleanup_all_absent | apply cleanup_all_twice].
Qed.

(** ** Splitting *)

Lemma oversized_length :
  Z.of_nat (List.length oversized) = (MAX_FILE_SIZE + 1)%Z.
Proof.
  unfold oversized. rewrite repeat_length, Z2Nat.id; [reflexivity |].
  unfold MAX_FILE_SIZE. lia.
Qed.













(** Against C9 as stated: when the write of the second part fails,
    [split_large_file] returns the original path alone, but the first part
    file, which was not there before, has been left on disk. *)
Lemma split_failure_leaves_part_counterexample :
  exists w',
    split_large_file second_part_locked video MAX_FILE_SIZE downloaded
    = (w', Ok [video])
    /\ is_file "/tmp/video_bot/downloads/1700000000/video_part000.mp4"
               downloaded = false
    /\ is_file "/tmp/video_bot/downloads/1700000000/video_part000.mp4"
               w' = true.
Proof.
  pose proof oversized_length as Hlen.
  eexists. unfold split_large_file, try_except.
  rewrite (split_large_file_try_second_write second_part_locked video
             MAX_FILE_SIZE downloaded oversized);
    [| reflexivity | lia | rewrite Hlen; unfold MAX_FILE_SIZE; lia
     | reflexivity | reflexivity | reflexivity].
  split; [reflexivity |]. split; [reflexivity |].
  unfold is_file. cbn [files set_files].
  change (chunk_path (fst (splitext video)) 0 (snd (splitext video)))
    with "/tmp/video_bot/downloads/1700000000/video_part000.mp4".
  now rewrite lookup_store_eq.
Qed.

(** C9, amended: [split_large_file] never raises; whenever its [try] block
    raises, whatever the error, it returns the singleton list of the
    original path, and the original file is as it was, as is every file
    that is not one of its part files. The part files written before the
    error are not removed. *)
Theorem split_large_file_except (E : env) (file_path : string)
    (chunk_size : Z) (w : world) :
  (exists w' paths, split_large_file E file_path chunk_size w = (w', Ok paths))
  /\ forall w' e,
       split_large_file_try E file_path chunk_size w = (w', Raise e) ->
       split_large_file E file_path chunk_size w = (w', Ok [file_path])
       /\ lookup file_path (files w') = lookup file_path (files w)
       /\ forall q,
            (forall j, q <> chunk_path (fst (splitext file_path)) j
                                       (snd (splitext file_path))) ->
            lookup q (files w') = lookup q (files w).
Proof.
  split; [apply split_large_file_returns |].
  intros w' e Htry. split.
  - unfold split_large_file, try_except. now rewrite Htry.
  - split; [now apply (split_large_file_try_frame E _ _ _ _ _ Htry) |].
    intros q Hq.
    now apply (split_large_file_try_frame_others E _ _ _ _ _ Htry).
Qed.

(** ** The acquisition chain *)





(** Against C7 as stated, in both directions: the tag of the first URL is
    [youtube], yet once the first two downloaders have failed the
    instagram extractor is invoked, because the text [instagram.com]
    occurs in the query string; the tag of the second URL is [instagram],
    its host being [instagram.com] once [urlparse] has removed the TAB,
    yet the extractor is not invoked, because the URL as given does not
    contain the text [instagram.com]. *)
Lemma instaloader_without_tag_counterexample :
  get_platform_type "https://youtube.com/watch?v=instagram.com" = youtube
  /\ trace (fst (download_with_yt_dlp_fallback quiet
                   "https://youtube.com/watch?v=instagram.com"
                   "/tmp/video_bot/downloads/1700000000" fresh))
     = [Attempt (ByTool YtDlp) None; Attempt (ByTool YoutubeDl) None;
        Attempt (ByTool Instaloader) None]
  /\ get_platform_type tab_url = instagram
  /\ trace (fst (download_with_yt_dlp_fallback quiet tab_url
                   "/tmp/video_bot/downloads/1700000000" fresh))
     = [Attempt (ByTool YtDlp) None; Attempt (ByTool YoutubeDl) None].
Proof. repeat split; reflexivity. Qed.

(** C7, what the code does: [download_with_yt_dlp_fallback] invokes the
    instagram extractor exactly when the first two downloaders have both
    been invoked and returned no file and the lower-cased URL, anywhere
    in it, contains [instagram.com]; a URL of printable ASCII characters
    without square brackets whose tag is [instagram] is such a URL. *)
Theorem instaloader_invoked_iff (E : env) (url output_dir : string) (w : world) :
  (exists evs,
     trace (fst (download_with_yt_dlp_fallback E url output_dir w))
     = (trace w ++ evs)%list
     /\ (In (ByTool Instaloader) (map strategy_of evs) <->
         contains "instagram.com" (lower url) = true
         /\ exists r1 r2,
              In (Attempt (ByTool YtDlp) r1) evs /\ truthy r1 = false
              /\ In (Attempt (ByTool YoutubeDl) r2) evs /\ truthy r2 = false))
  /\ (plain_url url = true -> get_platform_type url = instagram ->
      contains "instagram.com" (lower url) = true).
Proof.
  split; [| apply instagram_tag_in_url].
  destruct (download_with_yt_dlp_fallback_run E url output_dir w)
    as (w' & r & evs & -> & Htrace & (Hrun & _)).
  exists evs. split; [exact Htrace |]. clear Htrace.
  unfold fallback_order in Hrun.
  apply is_run_cons in Hrun. destruct Hrun as (r1 & evs1 & -> & Hrun).
  destruct (truthy r1) eqn:H1.
  { subst evs1. simpl. split.
    - intros [H|[]]; discriminate.
    - intros (_ & r1' & r2 & _ & _ & [H|[]] & _); discriminate. }
  apply is_run_cons in Hrun. destruct Hrun as (r2 & evs2 & -> & Hrun).
  destruct (contains "instagram.com" (lower url)).
  - destruct (truthy r2) eqn:H2.
    + subst evs2. simpl. split.
      * intros [H|[H|[]]]; discriminate.
      * intros (_ & r1' & r2' & _ & _ & [H|[H|[]]] & H2'); [discriminate |].
        injection H as <-. congruence.
    + apply is_run_cons in Hrun. destruct Hrun as (r3 & evs3 & -> & Hrun).
      assert (evs3 = []) as ->
        by (destruct (truthy r3); [assumption | now apply is_run_nil]).
      simpl. split; [| tauto].
      intros _. split; [reflexivity |]. exists r1, r2. tauto.
  - assert (evs2 = []) as ->
      by (destruct (truthy r2); [assumption | now apply is_run_nil]).
    simpl. split.
    + intros [H|[H|[]]]; discriminate.
    + intros [H _]. discriminate.
Qed.









End Claims.

(** * Further properties of the code *)

Example path_ex1 : path "http://h/a;p/b.c;q?z" = "/a;p/b.c".
Proof. reflexivity. Qed.

Example path_ex2 : path "https://h?q=/a.mp4" = "".
Proof. reflexivity. Qed.

Example path_ex3 : path "mailto:a/b;c" = "a/b;c".
Proof. reflexivity. Qed.

Example is_video_url_ex1 : is_video_url "https://example.com/CLIP.OGV#x" = true.
Proof. reflexivity. Qed.

Example is_video_url_ex2 : is_video_url "https://example.com/watch?v=a.mp4" = false.
Proof. reflexivity. Qed.

Example extract_filename_ex1 :
  extract_filename Scenario.quiet "https://example.com/watch?v=1"
  = "video_1700000000.mp4".
Proof. reflexivity. Qed.

Example handler_filename_ex1 :
  handler_filename Scenario.quiet "https://example.com/a/b.tar.gz;v=1"
  = "b.tar.gz.mp4".
Proof. reflexivity. Qed.

Example handler_filename_ex2 :
  handler_filename Scenario.quiet "https://h/a/.." = "...mp4".
Proof. reflexivity. Qed.

(** ** File names and URL screening *)

Module IntakeFacts.
Import StrFacts NameFacts.

Lemma existsb_same_elements {A} (f : A -> bool) (l1 l2 : list A) :
  (forall x, In x l1 <-> In x l2) -> existsb f l1 = existsb f l2.
Proof.
  intros Hsame. apply Bool.eq_true_iff_eq. rewrite !existsb_exists.
  split; intros (x & Hin & Hx); exists x; split; auto; now apply Hsame.
Qed.

(** X1: [is_video_url] accepts every URL [is_video_platform] accepts, and
    beyond those exactly the URLs whose path, in lower case, ends with one
    of the ten video extensions. *)
Theorem is_video_url_platform_or_extension (url : string) :
  is_video_url url
  = is_video_platform url
    || existsb (fun ext => endswith (lower (path (lower url))) ext)
               video_extensions.
Proof.
  unfold is_video_url, is_video_platform.
  rewrite (existsb_same_elements _ video_url_platforms video_platforms).
  - destruct (existsb _ video_platforms); reflexivity.
  - intros x. unfold video_url_platforms, video_platforms. simpl. tauto.
Qed.

Section WithEnv.
Variable E : env.

Lemma extract_filename_plain (url : string) :
  contains "/" (extract_filename E url) = false.
Proof.
  unfold extract_filename.
  destruct (String.eqb (basename (path url)) ""
            || negb (contains "." (basename (path url)))).
  - apply without_char_contains.
    rewrite !all_chars_append, str_int_chars. reflexivity.
  - apply basename_no_slash.
Qed.

(** X2: [extract_filename] never returns an empty name, always a name
    with a dot in it, and never a name with a slash in it. *)
Theorem extract_filename_is_a_name (url : string) :
  extract_filename E url <> ""
  /\ contains "." (extract_filename E url) = true
  /\ contains "/" (extract_filename E url) = false.
Proof.
  split; [| split; [| apply extract_filename_plain]];
    unfold extract_filename;
    destruct (String.eqb (basename (path url)) ""
              || negb (contains "." (basename (path url)))) eqn:Hbad;
    try (apply orb_false_elim in Hbad; destruct Hbad as [Hne Hdot]).
  - discriminate.
  - now apply String.eqb_neq.
  - change ("video_" ++ str_int (now E) ++ ".mp4")
      with ("video_" ++ str_int (now E) ++ "." ++ "mp4").
    rewrite <- append_assoc. apply contains_within. reflexivity.
  - now apply negb_false_iff.
Qed.

(** X4: the file name the handler passes to [download_video] always ends, in
    lower case, with one of the video extensions, and has no slash in it. *)
Theorem handler_filename_is_a_video_name (url : string) :
  existsb (fun ext => endswith (lower (handler_filename E url)) ext)
          video_extensions = true
  /\ contains "/" (handler_filename E url) = false.
Proof.
  pose proof (extract_filename_plain url) as Hslash.
  unfold handler_filename.
  destruct (existsb (fun ext => endswith (lower (extract_filename E url)) ext)
                    video_extensions) eqn:Hext; cbn [negb].
  - auto.
  - split.
    + rewrite lower_append.
      change (lower ".mp4") with ".mp4". unfold video_extensions.
      cbn [existsb]. now rewrite endswith_append.
    + apply without_char_contains. rewrite all_chars_append.
      now rewrite (contains_char_all _ _ Hslash).
Qed.

End WithEnv.
End IntakeFacts.

(** ** Direct fetches *)

Module FetchFacts.
Import FsFacts.

Section WithEnv.
Variable E : env.


Lemma direct_fetch_unfold h url out w :
  direct_fetch E h url out w
  = invoked (DirectFetch h) (fetch E h url out) w.
Proof. destruct h; reflexivity. Qed.

(** X6: a direct fetch that gets no usable response writes nothing: when the
    peer does not answer, answers with a status from 400 to 599 or sends a
    content length that is not a number, or when the output path cannot be
    opened for writing, the method returns [None] and files and
    directories are as they were. *)
Theorem direct_fetch_refused (h : header_set) (url out : string) (w : world) :
  http_get E h url = NoResponse
  \/ (exists status cl chunks ending,
        http_get E h url = Response status cl chunks ending
        /\ ((400 <= status < 600)%Z \/ cl = Malformed))
  \/ mem out (locked E) = true ->
  exists w',
    direct_fetch E h url out w = (w', Ok None)
    /\ files w' = files w /\ dirs w' = dirs w.
Proof.
  intros Hwhy. rewrite direct_fetch_unfold.
  unfold invoked, bind, fetch, try_except, raise_for_status, raise, ret.
  destruct (http_get E h url) as [|status cl chunks ending] eqn:Hget.
  { eexists. repeat split. }
  destruct ((400 <=? status)%Z && (status <? 600)%Z) eqn:Hst.
  { eexists. repeat split. }
  unfold content_length_of, raise, ret.
  destruct cl as [|n|]; try (eexists; repeat split; fail).
  all: unfold open_wb, bind; cbv beta iota;
    (destruct (is_dir (parent out) w); cbn [negb];
       [| eexists; repeat split; fail]);
    (destruct (mem out (locked E)) eqn:Hlock; [eexists; repeat split; fail |]).
  all: exfalso; destruct Hwhy as [H | [(s & c & ch & e & H & Hbad) | H]];
    try discriminate; injection H as <- <- <- <-;
    destruct Hbad as [Hbad | Hbad]; try discriminate;
    apply andb_false_elim in Hst; destruct Hst as [Hs | Hs];
    [apply Z.leb_gt in Hs | apply Z.ltb_ge in Hs]; lia.
Qed.


End WithEnv.
End FetchFacts.

(** ** Subprocess strategies *)

Module ToolFacts.
Import StrFacts NameFacts FsFacts ChainFacts.

Section WithEnv.
Variable E : env.

Lemma entry_name_plain d p name :
  entry_name d p = Some name -> contains "/" name = false.
Proof.
  unfold entry_name.
  destruct (String.eqb d ""); [discriminate |].
  destruct (startswith p _); [| discriminate].
  destruct (String.eqb _ ""); [discriminate |].
  destruct (contains "/" _) eqn:Hc; [discriminate |].
  intros H. now injection H as <-.
Qed.

Lemma names_in_plain d ps name :
  In name (names_in d ps) -> contains "/" name = false.
Proof.
  induction ps as [|p ps IH]; simpl; [tauto |].
  destruct (entry_name d p) as [n|] eqn:Hn; [| exact IH].
  intros [<- | Hin]; [exact (entry_name_plain _ _ _ Hn) | auto].
Qed.

Lemma listdir_plain d w name :
  In name (listdir E d w) -> contains "/" name = false.
Proof.
  unfold listdir. intros H.
  apply in_app_or in H. destruct H as [H | H];
    [exact (names_in_plain _ _ _ H) |].
  apply in_app_or in H. destruct H as [H | H]; exact (names_in_plain _ _ _ H).
Qed.

Lemma by_tool_unfold t url d w :
  by_tool E t url d w = download_with_tool E t (extensions_of t) url d w.
Proof. destruct t; reflexivity. Qed.

Lemma first_video_result exts d w :
  exists r, first_video E exts d w = (w, Ok r)
            /\ forall p, r = Some p ->
                 exists name,
                   p = join d name /\ In name (listdir E d w)
                   /\ contains "/" name = false
                   /\ existsb (endswith name) exts = true.
Proof.
  unfold first_video.
  destruct (find _ (listdir E d w)) as [name|] eqn:Hf; simpl.
  - eexists; split; [reflexivity |]. intros p Hp. injection Hp as <-.
    apply find_some in Hf. destruct Hf as [Hin Hext].
    exists name. split; [reflexivity |]. split; [exact Hin |].
    split; [exact (listdir_plain _ _ _ Hin) | exact Hext].
  - eexists; split; [reflexivity | discriminate].
Qed.

Lemma by_tool_shape (t : tool) (url output_dir : string) (w : world) :
  exists w' r,
    by_tool E t url output_dir w = (w', Ok r)
    /\ forall p, r = Some p ->
         exists name,
           p = join output_dir name /\ In name (listdir E output_dir w')
           /\ contains "/" name = false
           /\ existsb (endswith name) (extensions_of t) = true.
Proof.
  rewrite by_tool_unfold.
  unfold download_with_tool, invoked, bind, try_except, run_version,
    run_download, ret.
  destruct (version_probe E t) as [rc| |];
    try (do 2 eexists; split; [reflexivity | discriminate]).
  destruct (negb (rc =? 0)%Z);
    try (do 2 eexists; split; [reflexivity | discriminate]).
  destruct (run_tool E t url output_dir) as [rc'| |];
    try (do 2 eexists; split; [reflexivity | discriminate]).
  destruct (rc' =? 0)%Z;
    try (do 2 eexists; split; [reflexivity | discriminate]).
  match goal with
  | |- context [first_video E ?x output_dir ?w1] =>
      destruct (first_video_result x output_dir w1) as (r & -> & Hr)
  end.
  do 2 eexists; split; [reflexivity | exact Hr].
Qed.

(** X8: none of the three subprocess methods raises; each records its one
    invocation; and a path one of them returns is [output_dir] joined with
    the name of an entry of that directory, as [os.listdir] gives it once
    the tool has run, that ends with one of the extensions the method
    looks for.  The method does not look at what the entry is: a file, a
    directory or a link to nothing. *)
Theorem by_tool_result (t : tool) (url output_dir : string) (w : world) :
  exists w' r,
    by_tool E t url output_dir w = (w', Ok r)
    /\ trace w' = (trace w ++ [Attempt (ByTool t) r])%list
    /\ forall p, r = Some p ->
         exists name,
           p = join output_dir name /\ In name (listdir E output_dir w')
           /\ contains "/" name = false
           /\ existsb (endswith name) (extensions_of t) = true.
Proof.
  destruct (by_tool_shape t url output_dir w) as (w' & r & Hrun & Hshape).
  exists w', r. split; [exact Hrun |]. split; [| exact Hshape].
  rewrite by_tool_unfold in Hrun.
  destruct (download_with_tool_spec E t (extensions_of t) url output_dir w)
    as (w'' & r' & Hrun' & Htrace).
  rewrite Hrun in Hrun'. injection Hrun' as <- <-. exact Htrace.
Qed.

Lemma by_tool_probe_gate t url d w :
  version_probe E t <> Returned 0 ->
  exists w', by_tool E t url d w = (w', Ok None)
             /\ files w' = files w /\ dirs w' = dirs w.
Proof.
  intros Hprobe. rewrite by_tool_unfold.
  unfold download_with_tool, invoked, bind, try_except, run_version, ret.
  destruct (version_probe E t) as [rc| |]; try (eexists; repeat split; fail).
  destruct (Z.eqb_spec rc 0) as [-> | Hrc]; [congruence |].
  eexists; repeat split.
Qed.

(** X9: when none of the three tools answers its version probe with exit code
    0, [download_with_yt_dlp_fallback] runs no download command: it returns
    [None] and files and directories are as they were. *)
Theorem download_with_yt_dlp_fallback_no_tools (url output_dir : string)
    (w : world) :
  (forall t, version_probe E t <> Returned 0) ->
  exists w',
    download_with_yt_dlp_fallback E url output_dir w = (w', Ok None)
    /\ files w' = files w /\ dirs w' = dirs w.
Proof.
  intros Hnone. unfold download_with_yt_dlp_fallback, bind, ret.
  destruct (by_tool_probe_gate YtDlp url output_dir w (Hnone _))
    as (w1 & H1 & F1 & D1).
  change (by_tool E YtDlp) with (download_with_ytdlp E) in H1. rewrite H1.
  cbn [truthy].
  destruct (by_tool_probe_gate YoutubeDl url output_dir w1 (Hnone _))
    as (w2 & H2 & F2 & D2).
  change (by_tool E YoutubeDl) with (download_with_youtubedl E) in H2.
  rewrite H2. cbn [truthy].
  destruct (contains "instagram.com" (lower url)).
  - destruct (by_tool_probe_gate Instaloader url output_dir w2 (Hnone _))
      as (w3 & H3 & F3 & D3).
    change (by_tool E Instaloader) with (download_with_instaloader E) in H3.
    rewrite H3. cbn [truthy]. exists w3. repeat split; congruence.
  - exists w2. repeat split; congruence.
Qed.

Lemma lookup_store_some p q d fs :
  lookup q fs <> None -> lookup q (store p d fs) <> None.
Proof.
  destruct (String.eqb_spec p q) as [->|Hne].
  - rewrite lookup_store_eq. discriminate.
  - now rewrite lookup_store_neq.
Qed.

Lemma written_files_exist d outputs :
  forall fs,
    (forall q, lookup q fs <> None ->
       lookup q (fold_left (fun fs f => store (join d (fst f)) (snd f) fs)
                           outputs fs) <> None)
    /\ forall f, In f outputs ->
         lookup (join d (fst f))
                (fold_left (fun fs f => store (join d (fst f)) (snd f) fs)
                           outputs fs) <> None.
Proof.
  induction outputs as [|f0 outputs IH]; intros fs; simpl.
  - split; [auto | tauto].
  - destruct (IH (store (join d (fst f0)) (snd f0) fs)) as [Hkeep Hnew].
    split.
    + intros q Hq. apply Hkeep. now apply lookup_store_some.
    + intros f [<- | Hin]; [| auto].
      apply Hkeep. rewrite lookup_store_eq. discriminate.
Qed.

(** X10: a subprocess method whose tool passes the version probe but then
    times out or exits with a code other than 0 returns [None]; whatever
    the tool had written to the output directory is still there. *)
Theorem by_tool_failed_run (t : tool) (url output_dir : string) (w : world) :
  version_probe E t = Returned 0 ->
  run_tool E t url output_dir = TimedOut
  \/ (exists rc, run_tool E t url output_dir = Returned rc /\ rc <> 0%Z) ->
  exists w',
    by_tool E t url output_dir w = (w', Ok None)
    /\ (forall f, In f (tool_output E t url output_dir) ->
                  is_file (join output_dir (fst f)) w' = true)
    /\ forall q, is_file q w = true -> is_file q w' = true.
Proof.
  intros Hprobe Hrun. rewrite by_tool_unfold.
  unfold download_with_tool, invoked, bind, try_except, run_version,
    run_download, ret.
  rewrite Hprobe. cbn [Z.eqb negb].
  destruct (written_files_exist output_dir (tool_output E t url output_dir)
              (files w)) as [Hkeep Hnew].
  assert (Hfile : forall q fs tr,
            lookup q fs <> None -> is_file q (mkWorld fs (dirs w) tr) = true).
  { intros q fs tr H. unfold is_file. simpl. destruct (lookup q fs); congruence. }
  assert (Hold : forall q, is_file q w = true -> lookup q (files w) <> None).
  { intros q. unfold is_file. destruct (lookup q (files w)); congruence. }
  destruct Hrun as [-> | (rc & -> & Hrc)].
  - eexists. split; [reflexivity |]. split.
    + intros f Hin. apply Hfile. now apply Hnew.
    + intros q Hq. apply Hfile. now apply Hkeep, Hold.
  - destruct (Z.eqb_spec rc 0) as [-> | _]; [congruence |].
    eexists. split; [reflexivity |]. split.
    + intros f Hin. apply Hfile. now apply Hnew.
    + intros q Hq. apply Hfile. now apply Hkeep, Hold.
Qed.

End WithEnv.
End ToolFacts.

(** ** Where downloads go *)

Module WorkspaceFacts.
Import StrFacts NameFacts FsFacts ChainFacts FetchFacts ToolFacts.

Lemma plain_append a b :
  contains "/" a = false -> contains "/" b = false ->
  contains "/" (a ++ b) = false.
Proof.
  intros Ha Hb. apply without_char_contains. rewrite all_chars_append.
  now rewrite (contains_char_all _ _ Ha), (contains_char_all _ _ Hb).
Qed.

Section WithEnv.
Variable E : env.

Lemma fetch_shape h url out w :
  exists w' r, fetch E h url out w = (w', Ok r) /\ (r = None \/ r = Some out).
Proof.
  unfold fetch, try_except, ret, raise.
  destruct (http_get E h url) as [|status cl chunks ending];
    [do 2 eexists; split; [reflexivity | auto] |].
  unfold bind, raise_for_status, raise, ret.
  destruct ((400 <=? status)%Z && (status <? 600)%Z);
    [do 2 eexists; split; [reflexivity | auto] |].
  destruct cl as [|n|]; unfold content_length_of, raise, ret;
    try (do 2 eexists; split; [reflexivity | auto]; fail);
    (destruct (open_wb_cases E out w) as [-> | [e ->]];
       [| do 2 eexists; split; [reflexivity | auto]]);
    match goal with
    | |- context [write_chunks out chunks ?w1] =>
        destruct (write_chunks_spec out chunks w1) as (w' & -> & _ & _);
          [unfold is_file; simpl; now rewrite lookup_store_eq |]
    end;
    (destruct ending; do 2 eexists; (split; [reflexivity | auto])).
Qed.

Lemma direct_fetch_shape h url out w :
  exists w' r,
    direct_fetch E h url out w = (w', Ok r) /\ (r = None \/ r = Some out).
Proof.
  rewrite direct_fetch_unfold. unfold invoked, bind.
  destruct (fetch_shape h url out w) as (w' & r & -> & Hr).
  do 2 eexists. split; [reflexivity | exact Hr].
Qed.

Lemma download_with_yt_dlp_fallback_shape url d w :
  exists w' r,
    download_with_yt_dlp_fallback E url d w = (w', Ok r)
    /\ forall p, r = Some p ->
         exists name, p = join d name /\ contains "/" name = false.
Proof.
  assert (Htool : forall t w0,
    exists w1 r1,
      by_tool E t url d w0 = (w1, Ok r1)
      /\ forall p, r1 = Some p ->
           exists name, p = join d name /\ contains "/" name = false).
  { intros t w0. destruct (by_tool_shape E t url d w0) as (w1 & r1 & Hrun & Hr).
    exists w1, r1. split; [exact Hrun |]. intros p Hp.
    destruct (Hr p Hp) as (name & -> & _ & Hplain & _).
    exists name. split; [reflexivity | exact Hplain]. }
  unfold download_with_yt_dlp_fallback, bind, ret.
  destruct (Htool YtDlp w) as (w1 & r1 & H1 & S1). cbn [by_tool] in H1.
  rewrite H1. destruct (truthy r1); [eauto |].
  destruct (Htool YoutubeDl w1) as (w2 & r2 & H2 & S2). cbn [by_tool] in H2.
  rewrite H2. destruct (truthy r2); [eauto |].
  destruct (contains "instagram.com" (lower url)).
  - destruct (Htool Instaloader w2) as (w3 & r3 & H3 & S3).
    cbn [by_tool] in H3. rewrite H3.
    destruct (truthy r3); [eauto |].
    do 2 eexists. split; [reflexivity | discriminate].
  - do 2 eexists. split; [reflexivity | discriminate].
Qed.

Lemma download_video_path self url filename w w' p :
  contains "/" filename = false ->
  download_video E self url filename w = (w', Ok p) ->
  exists name,
    p = join (download_dir E self) name /\ contains "/" name = false
    /\ exists_ p w' = true.
Proof.
  intros Hrel. unfold download_video, try_except, bind, urlparse_check.
  set (dd := download_dir E self).
  destruct (makedirs E dd w) as [w0 [[]|e]]; [| discriminate].
  destruct (urlsplit_raises (lower url)); [discriminate |].
  change (ret tt w0) with (w0, @Ok unit tt). cbv iota.
  set (shape := fun r : option string =>
         forall q, r = Some q ->
           exists name, q = join dd name /\ contains "/" name = false).
  assert (P1 : exists w1 r1,
             (if is_video_platform url
              then download_with_yt_dlp_fallback E url dd
              else ret None) w0 = (w1, Ok r1) /\ shape r1).
  { destruct (is_video_platform url).
    - apply download_with_yt_dlp_fallback_shape.
    - exists w0, None. split; [reflexivity | discriminate]. }
  destruct P1 as (w1 & r1 & -> & S1).
  assert (P2 : exists w2 r2,
             (if negb (truthy r1) && is_video_platform url
              then match get_platform_type url with
                   | youtube | instagram | tiktok =>
                       try_except
                         (download_direct_with_enhanced_headers E url
                            (join dd ("alternative_" ++ filename)))
                         (fun _ => ret r1)
                   | _ => ret r1
                   end
              else ret r1) w1 = (w2, Ok r2) /\ shape r2).
  { assert (Hkeep : exists w2 r2, ret r1 w1 = (w2, Ok r2) /\ shape r2)
      by (exists w1, r1; split; [reflexivity | exact S1]).
    destruct (negb (truthy r1) && is_video_platform url); [| exact Hkeep].
    destruct (get_platform_type url); try exact Hkeep;
      unfold try_except;
      destruct (direct_fetch_shape EnhancedHeaders url
                  (join dd ("alternative_" ++ filename)) w1)
        as (w2 & r2 & Hrun & Hr);
      cbn [direct_fetch] in Hrun; rewrite Hrun;
      exists w2, r2; (split; [reflexivity |]);
      intros q Hq; (destruct Hr as [-> | ->]; [discriminate |]);
      injection Hq as <-; exists ("alternative_" ++ filename);
      (split; [reflexivity |]); now apply plain_append. }
  unfold try_except in P2. destruct P2 as (w2 & r2 & -> & S2).
  assert (P3 : exists w3 r3,
             (if negb (truthy r2)
              then download_direct E url (join dd filename)
              else ret r2) w2 = (w3, Ok r3) /\ shape r3).
  { destruct (negb (truthy r2)).
    - destruct (direct_fetch_shape MinimalHeaders url (join dd filename) w2)
        as (w3 & r3 & Hrun & Hr).
      cbn [direct_fetch] in Hrun. rewrite Hrun. exists w3, r3.
      split; [reflexivity |]. intros q Hq.
      destruct Hr as [-> | ->]; [discriminate |]. injection Hq as <-.
      exists filename. auto.
    - exists w2, r2. split; [reflexivity | exact S2]. }
  destruct P3 as (w3 & r3 & -> & S3).
  destruct r3 as [q|]; [| discriminate].
  destruct (truthy (Some q)); cbn [andb]; [| discriminate].
  destruct (exists_ q w3) eqn:Hex; [| discriminate].
  intros H. injection H as <- <-.
  destruct (S3 q eq_refl) as (name & Hq & Hname). eauto.
Qed.

(** X11: with a file name that has no slash in it, as the message handler
    passes it, a path [download_video] returns is the download directory of
    the run, [downloads_dir] joined with the time, joined with one name
    that has no slash in it; and the path exists. *)
Theorem download_video_stays_in_workspace (self : downloader)
    (url filename : string) (w : world) :
  contains "/" filename = false ->
  match download_video E self url filename w with
  | (w', Ok p) =>
      exists name,
        p = join (join (downloads_dir self) (str_int (now E))) name
        /\ contains "/" name = false
        /\ exists_ p w' = true
  | (_, Raise _) => True
  end.
Proof.
  intros Hrel.
  destruct (download_video E self url filename w) as [w' [p|e]] eqn:Hrun;
    [| exact I].
  exact (download_video_path _ _ _ _ _ _ Hrel Hrun).
Qed.

End WithEnv.
End WorkspaceFacts.
(** ** Cleaning up and failing *)

Module CleanupFacts.
Import StrFacts FsFacts.

Section WithEnv.
Variable E : env.





(** X12: whatever goes wrong inside [download_video] reaches the caller as a
    plain [Exception] whose message starts with [Failed to download
    video: ]; and when the download directory cannot be created, it
    raises with the reason of that failure, having tried no strategy and
    changed nothing. *)
Theorem download_video_errors (self : downloader) (url filename : string)
    (w : world) :
  match download_video E self url filename w with
  | (_, Ok _) => True
  | (_, Raise e) =>
      exists msg, e = Exception ("Failed to download video: " ++ msg)
  end
  /\ forall e,
       snd (makedirs E (download_dir E self) w) = Raise e ->
       download_video E self url filename w
       = (w, Raise (Exception ("Failed to download video: " ++ exn_str e))).
Proof.
  split.
  - unfold download_video, try_except, raise.
    match goal with
    | |- match (let (_, _) := ?c in _) with _ => _ end =>
        destruct c as [w' [p|e]]
    end; eauto.
  - intros e. unfold download_video, try_except, bind, raise.
    unfold makedirs.
    destruct (is_file (download_dir E self) w);
      [simpl; intros H; now injection H as <- |].
    destruct (mem (download_dir E self) (dirs w)); [discriminate |].
    destruct (mem (download_dir E self) (locked E)); [| discriminate].
    simpl. intros H. now injection H as <-.
Qed.

End WithEnv.
End CleanupFacts.

(** ** More on splitting *)

Module SplitMore.
Import StrFacts PathFacts FsFacts SplitFacts.

Section WithEnv.
Variable E : env.

Lemma split_loop_extends base ext c n :
  forall source, List.length source <= n ->
  forall k chunks w w' paths,
    split_loop E base ext c source k chunks w = (w', Ok paths) ->
    exists more, paths = (chunks ++ more)%list.
Proof.
  induction n as [|n IH]; intros source Hn k chunks w w' paths;
    rewrite split_loop_step;
    destruct (read E c source) as [[[|b d] s']|e] eqn:Hr;
    try discriminate;
    try (intros H; injection H as _ <-; exists []; now rewrite app_nil_r).
  - apply read_shrinks in Hr. lia.
  - apply read_shrinks in Hr.
    destruct (write_file E (chunk_path base k ext) (b :: d) w) as [w1 [[]|e]];
      [| discriminate].
    intros H. apply IH in H; [| lia]. destruct H as [more ->].
    eexists. now rewrite <- app_assoc.
Qed.

(** X14: [split_large_file] changes no directory and no file other than its
    own part files, whatever its outcome: the source file, in particular,
    is never modified or removed. *)
Theorem split_large_file_touches_only_parts (file_path : string)
    (chunk_size : Z) (w : world) :
  dirs (fst (split_large_file E file_path chunk_size w)) = dirs w
  /\ lookup file_path (files (fst (split_large_file E file_path chunk_size w)))
     = lookup file_path (files w)
  /\ forall q,
       (forall j, q <> chunk_path (fst (splitext file_path)) j
                                  (snd (splitext file_path))) ->
       lookup q (files (fst (split_large_file E file_path chunk_size w)))
       = lookup q (files w).
Proof.
  unfold split_large_file, try_except, ret.
  destruct (split_large_file_try E file_path chunk_size w) as [w' r] eqn:Htry.
  destruct (split_large_file_try_frame E _ _ _ _ _ Htry) as (Hsrc & Hdirs & _).
  pose proof (split_large_file_try_frame_others E _ _ _ _ _ Htry) as Hothers.
  destruct r; simpl; auto.
Qed.

(** X15: [split_large_file] returns the empty list, leaving the caller with
    nothing to deliver, exactly when the file exists, is larger than the
    limit, and the chunk size is 0. *)
Theorem split_large_file_empty_iff (file_path : string) (chunk_size : Z)
    (w : world) :
  snd (split_large_file E file_path chunk_size w) = Ok []
  <-> exists data,
        lookup file_path (files w) = Some data
        /\ (MAX_FILE_SIZE < Z.of_nat (List.length data))%Z
        /\ chunk_size = 0%Z.
Proof.
  split.
  - unfold split_large_file, try_except, ret.
    destruct (split_large_file_try E file_path chunk_size w)
      as [w' [paths|e]] eqn:Htry; simpl; [| discriminate].
    intros H. injection H as ->. revert Htry.
    unfold split_large_file_try, bind, getsize, open_rb.
    destruct (lookup file_path (files w)) as [data|] eqn:Hp; [| discriminate].
    destruct (Z.leb_spec (Z.of_nat (List.length data)) MAX_FILE_SIZE)
      as [_|Hbig]; [discriminate |].
    rewrite Hp. intros Hloop. exists data. split; [reflexivity |].
    split; [exact Hbig |].
    destruct (Z.eq_dec chunk_size 0) as [Hz|Hnz]; [exact Hz | exfalso].
    rewrite split_loop_step in Hloop.
    destruct (read E chunk_size data) as [[[|b d] s']|e] eqn:Hr;
      [| | discriminate].
    + apply read_nothing in Hr. destruct Hr as [-> | Hz]; [| contradiction].
      unfold MAX_FILE_SIZE in Hbig. simpl in Hbig. lia.
    + destruct (write_file E _ (b :: d) w) as [w1 [[]|e]]; [| discriminate].
      apply split_loop_extends with (n := List.length s') in Hloop; [| lia].
      destruct Hloop as [more Hmore]. destruct more; discriminate.
  - intros (data & Hp & Hbig & ->).
    unfold split_large_file, try_except.
    rewrite (split_large_file_try_big E file_path 0 w data Hp Hbig).
    rewrite split_loop_step. reflexivity.
Qed.


Lemma write_file_keeps p d w w' r q :
  write_file E p d w = (w', r) -> is_file q w = true -> is_file q w' = true.
Proof.
  intros Hw Hq. destruct (String.eqb_spec q p) as [->|Hne].
  - destruct (write_file_cases E p d w) as [Hc | [e Hc]];
      rewrite Hc in Hw; injection Hw as <- _; [| exact Hq].
    unfold is_file. simpl. now rewrite lookup_store_eq.
  - destruct (write_file_frame E _ _ _ _ _ _ Hw Hne) as (Hf & _).
    unfold is_file in *. now rewrite Hf.
Qed.

Lemma split_loop_written base ext c n :
  forall source, List.length source <= n ->
  forall k chunks w w' paths,
    split_loop E base ext c source k chunks w = (w', Ok paths) ->
    (forall q, is_file q w = true -> is_file q w' = true)
    /\ exists more,
         paths = (chunks ++ more)%list
         /\ forall q, In q more -> is_file q w' = true.
Proof.
  induction n as [|n IH]; intros source Hn k chunks w w' paths;
    rewrite split_loop_step;
    destruct (read E c source) as [[[|b d] s']|e] eqn:Hr;
    try discriminate;
    try (intros H; injection H as <- <-; split; [auto |];
         exists []; rewrite app_nil_r; split; [reflexivity | intros q []]).
  - apply read_shrinks in Hr. lia.
  - apply read_shrinks in Hr.
    destruct (write_file E (chunk_path base k ext) (b :: d) w)
      as [w1 [[]|e]] eqn:Hw; [| discriminate].
    intros H. apply IH in H; [| lia]. destruct H as (Hkeep & more & -> & Hmore).
    split.
    + intros q Hq. apply Hkeep. exact (write_file_keeps _ _ _ _ _ _ Hw Hq).
    + exists (chunk_path base k ext :: more). split.
      * now rewrite <- app_assoc.
      * intros q [<- | Hin]; [| auto]. apply Hkeep.
        rewrite (write_file_done E _ _ _ _ Hw).
        unfold is_file. simpl. now rewrite lookup_store_eq.
Qed.

(** X18: when the file to split exists, every path [split_large_file]
    returns names a file that is there afterwards, whether the split went
    through or was abandoned for the original path. *)
Theorem split_large_file_returns_files (file_path : string) (chunk_size : Z)
    (w : world) (data : list byte) :
  lookup file_path (files w) = Some data ->
  exists w' paths,
    split_large_file E file_path chunk_size w = (w', Ok paths)
    /\ forall q, In q paths -> is_file q w' = true.
Proof.
  intros Hp.
  assert (Hsrc : forall w', lookup file_path (files w') = Some data ->
                            forall q, In q [file_path] -> is_file q w' = true).
  { intros w' H q [<- | []]. unfold is_file. now rewrite H. }
  unfold split_large_file, try_except, ret.
  destruct (split_large_file_try E file_path chunk_size w) as [w' r] eqn:Htry.
  destruct (split_large_file_try_frame E _ _ _ _ _ Htry) as (Hkept & _).
  rewrite Hp in Hkept. destruct r as [paths|e].
  2:{ exists w', [file_path]. split; [reflexivity | now apply Hsrc]. }
  exists w', paths. split; [reflexivity |]. revert Htry.
  unfold split_large_file_try, bind, getsize, open_rb. rewrite Hp.
  destruct (Z.of_nat (List.length data) <=? MAX_FILE_SIZE)%Z.
  - unfold ret. intros H. injection H as <- <-. apply Hsrc.
    congruence.
  - rewrite Hp. intros Hloop.
    apply split_loop_written with (n := List.length data) in Hloop; [| lia].
    destruct Hloop as (_ & more & -> & Hmore). exact Hmore.
Qed.

End WithEnv.

(** X17: part paths never collide: two part numbers give the same path only if
    they are the same number, also past 999 where the number takes more
    than three digits, and no part path is the path of the file that is
    split. *)
Theorem chunk_path_distinct (file_path : string) (i j : N) :
  (chunk_path (fst (splitext file_path)) i (snd (splitext file_path))
   = chunk_path (fst (splitext file_path)) j (snd (splitext file_path))
   <-> i = j)
  /\ chunk_path (fst (splitext file_path)) i (snd (splitext file_path))
     <> file_path.
Proof.
  split; [split |].
  - apply chunk_path_inj.
  - now intros ->.
  - apply chunk_path_not_source.
Qed.

End SplitMore.

(** ** What the classifier reads *)

Module HostFacts.
Import StrFacts NameFacts ClassifierFacts.

Lemma until_delim_append a rest :
  all_chars (fun c => negb (Ascii.eqb c "/" || Ascii.eqb c "?"
                            || Ascii.eqb c "#")) a = true ->
  until_delim (a ++ "/" ++ rest) = a.
Proof.
  induction a as [|c a IH]; [reflexivity |].
  cbn [all_chars]. intros H. apply andb_prop in H. destruct H as [Hc Ha].
  apply negb_true_iff in Hc.
  change (String c a ++ "/" ++ rest) with (String c (a ++ "/" ++ rest)).
  cbn [until_delim]. now rewrite Hc, (IH Ha).
Qed.

Lemma clean_https x :
  clean ("https://" ++ x) = "https://" ++ remove_chars is_unsafe x.
Proof. reflexivity. Qed.

Lemma clean_http x :
  clean ("http://" ++ x) = "http://" ++ remove_chars is_unsafe x.
Proof. reflexivity. Qed.

Lemma netloc_https x :
  netloc ("https://" ++ x) = until_delim (remove_chars is_unsafe x).
Proof.
  unfold netloc. rewrite clean_https. set (y := remove_chars is_unsafe x).
  change (strip_scheme ("https://" ++ y)) with ("//" ++ y).
  unfold startswith. now rewrite (prefix_append "//" y).
Qed.

Lemma netloc_http x :
  netloc ("http://" ++ x) = until_delim (remove_chars is_unsafe x).
Proof.
  unfold netloc. rewrite clean_http. set (y := remove_chars is_unsafe x).
  change (strip_scheme ("http://" ++ y)) with ("//" ++ y).
  unfold startswith. now rewrite (prefix_append "//" y).
Qed.

Lemma host_char_lower c : host_char c = true -> host_char (lower_char c) = true.
Proof. destruct c as [[] [] [] [] [] [] [] []]; reflexivity || discriminate. Qed.

Lemma host_char_kept c : host_char c = true -> negb (is_unsafe c) = true.
Proof. destruct c as [[] [] [] [] [] [] [] []]; reflexivity || discriminate. Qed.

Lemma host_char_inside c :
  host_char c = true ->
  negb (Ascii.eqb c "/" || Ascii.eqb c "?" || Ascii.eqb c "#") = true.
Proof. destruct c as [[] [] [] [] [] [] [] []]; reflexivity || discriminate. Qed.

Lemma host_lower host :
  all_chars host_char host = true -> all_chars host_char (lower host) = true.
Proof.
  unfold lower. induction host as [|c host IH]; [reflexivity |].
  cbn [all_chars map_chars]. intros H. apply andb_prop in H.
  destruct H as [Hc Hs]. now rewrite (host_char_lower c Hc), IH.
Qed.

(** A plain host followed by a slash is the network location, whatever
    follows. *)
Lemma until_delim_clean host rest :
  all_chars host_char host = true ->
  until_delim (remove_chars is_unsafe (host ++ "/" ++ rest)) = host.
Proof.
  intros H. rewrite remove_chars_append.
  rewrite (remove_chars_none is_unsafe host)
    by exact (all_chars_impl _ _ _ host_char_kept H).
  change (remove_chars is_unsafe ("/" ++ rest))
    with ("/" ++ remove_chars is_unsafe rest).
  apply until_delim_append. exact (all_chars_impl _ _ _ host_char_inside H).
Qed.

(** X5: for a URL made of [http://] or [https://], a host of printable ASCII
    characters without square brackets, a slash and anything after it,
    the tag and the platform test are determined by the host alone, in
    lower case: a platform name that occurs only after the host, in the
    path or the query string, does not count. *)
Theorem classification_reads_host_only (host rest : string) :
  all_chars host_char host = true ->
  (urlsplit_raises (lower ("https://" ++ host ++ "/" ++ rest)) = false
   /\ get_platform_type ("https://" ++ host ++ "/" ++ rest)
      = first_match platform_table (lower host)
   /\ is_video_platform ("https://" ++ host ++ "/" ++ rest)
      = existsb (fun platform => contains platform (lower host))
                video_platforms)
  /\ (urlsplit_raises (lower ("http://" ++ host ++ "/" ++ rest)) = false
      /\ get_platform_type ("http://" ++ host ++ "/" ++ rest)
         = first_match platform_table (lower host)
      /\ is_video_platform ("http://" ++ host ++ "/" ++ rest)
         = existsb (fun platform => contains platform (lower host))
                   video_platforms).
Proof.
  intros Hhost. pose proof (host_lower host Hhost) as Hlow.
  assert (Hs : netloc (lower ("https://" ++ host ++ "/" ++ rest)) = lower host).
  { rewrite !lower_append. change (lower "https://") with "https://".
    change (lower "/") with "/". rewrite netloc_https.
    now apply until_delim_clean. }
  assert (Hp : netloc (lower ("http://" ++ host ++ "/" ++ rest)) = lower host).
  { rewrite !lower_append. change (lower "http://") with "http://".
    change (lower "/") with "/". rewrite netloc_http.
    now apply until_delim_clean. }
  assert (Hno : forall c, (c = "[" \/ c = "]")%char ->
                  contains (String c "") (lower host) = false).
  { intros c Hc. apply without_char_contains.
    refine (all_chars_impl _ _ _ _ Hlow). intros x Hx.
    destruct Hc as [-> | ->];
      destruct x as [[] [] [] [] [] [] [] []]; reflexivity || discriminate. }
  rewrite !get_platform_type_table. unfold is_video_platform, urlsplit_raises.
  rewrite Hs, Hp.
  rewrite (Hno "["%char (or_introl eq_refl)), (Hno "]"%char (or_intror eq_refl)).
  auto.
Qed.

End HostFacts.

(** ** The file name taken from a URL *)

Module FilenameFacts.
Import StrFacts NameFacts ClassifierFacts ChainFacts HostFacts.

Lemma until_char_clean c a b :
  all_chars (fun x => negb (Ascii.eqb x c)) a = true ->
  until_char c (a ++ b) = a ++ until_char c b.
Proof.
  induction a as [|x a IH]; [reflexivity |].
  cbn [all_chars]. intros H. apply andb_prop in H. destruct H as [Hx Ha].
  apply negb_true_iff in Hx.
  change (String x a ++ b) with (String x (a ++ b)).
  cbn [until_char]. now rewrite Hx, (IH Ha).
Qed.

Lemma until_char_all c a :
  all_chars (fun x => negb (Ascii.eqb x c)) a = true -> until_char c a = a.
Proof.
  intros H. rewrite <- (append_nil_r a) at 1.
  rewrite (until_char_clean c a "" H). apply append_nil_r.
Qed.

Lemma until_delim_before a t :
  all_chars (fun c => negb (Ascii.eqb c "/" || Ascii.eqb c "?"
                            || Ascii.eqb c "#")) a = true ->
  until_delim (a ++ "/" ++ t) = a.
Proof. apply until_delim_append. Qed.

Section WithEnv.
Variable E : env.

(** X3: for an [https] URL made of a host of printable ASCII characters
    without square brackets, a path whose last segment is [name], and a
    query string, where path and name hold none of '?', '#', ';', TAB,
    CR and LF and [name] is not empty and has a dot, [extract_filename]
    returns [name]: the directories before it and the query string after
    it are dropped. *)
Theorem extract_filename_last_segment (host dir name query : string) :
  all_chars host_char host = true ->
  all_chars (fun c => kept_char c
                      && negb (Ascii.eqb c "?" || Ascii.eqb c "#"
                               || Ascii.eqb c ";")) dir = true ->
  all_chars (fun c => kept_char c
                      && negb (Ascii.eqb c "/" || Ascii.eqb c "?"
                               || Ascii.eqb c "#" || Ascii.eqb c ";")) name
  = true ->
  name <> "" ->
  contains "." name = true ->
  extract_filename E ("https://" ++ host ++ "/" ++ dir ++ "/" ++ name
                      ++ "?" ++ query)
  = name.
Proof.
  intros Hhost Hdir0 Hname0 Hne Hdot.
  assert (Hdir : all_chars (fun c => negb (Ascii.eqb c "?" || Ascii.eqb c "#"
                                           || Ascii.eqb c ";")) dir = true).
  { refine (all_chars_impl _ _ _ _ Hdir0). intros c Hc.
    now apply andb_prop in Hc. }
  assert (Hname : all_chars (fun c => negb (Ascii.eqb c "/" || Ascii.eqb c "?"
                                            || Ascii.eqb c "#"
                                            || Ascii.eqb c ";")) name = true).
  { refine (all_chars_impl _ _ _ _ Hname0). intros c Hc.
    now apply andb_prop in Hc. }
  assert (Hkd : remove_chars is_unsafe dir = dir).
  { apply remove_chars_none. refine (all_chars_impl _ _ _ _ Hdir0).
    intros c Hc. now apply andb_prop in Hc. }
  assert (Hkn : remove_chars is_unsafe name = name).
  { apply remove_chars_none. refine (all_chars_impl _ _ _ _ Hname0).
    intros c Hc. now apply andb_prop in Hc. }
  assert (Hkh : remove_chars is_unsafe host = host).
  { apply remove_chars_none.
    exact (all_chars_impl _ _ _ host_char_kept Hhost). }
  assert (Hinside : all_chars (fun c => negb (Ascii.eqb c "/" || Ascii.eqb c "?"
                                              || Ascii.eqb c "#")) host = true)
    by exact (all_chars_impl _ _ _ host_char_inside Hhost).
  assert (Hd : forall c, (c = "?" \/ c = "#" \/ c = ";")%char ->
             all_chars (fun x => negb (Ascii.eqb x c)) dir = true).
  { intros c Hc. refine (all_chars_impl _ _ _ _ Hdir). intros x Hx.
    apply negb_true_iff in Hx. apply negb_true_iff.
    repeat (apply orb_false_elim in Hx; destruct Hx as [Hx ?]).
    destruct Hc as [-> | [-> | ->]]; assumption. }
  assert (Hn : forall c, (c = "/" \/ c = "?" \/ c = "#" \/ c = ";")%char ->
             all_chars (fun x => negb (Ascii.eqb x c)) name = true).
  { intros c Hc. refine (all_chars_impl _ _ _ _ Hname). intros x Hx.
    apply negb_true_iff in Hx. apply negb_true_iff.
    repeat (apply orb_false_elim in Hx; destruct Hx as [Hx ?]).
    destruct Hc as [-> | [-> | [-> | ->]]]; assumption. }
  assert (Hpath : forall c, (c = "?" \/ c = "#" \/ c = ";")%char ->
             all_chars (fun x => negb (Ascii.eqb x c))
                       ("/" ++ dir ++ "/" ++ name) = true).
  { intros c Hc. rewrite !all_chars_append.
    rewrite (Hd c Hc), (Hn c ltac:(tauto)).
    destruct Hc as [-> | [-> | ->]]; reflexivity. }
  assert (Hclean :
    clean ("https://" ++ host ++ "/" ++ dir ++ "/" ++ name ++ "?" ++ query)
    = "https://" ++ host ++ "/" ++ dir ++ "/" ++ name ++ "?"
      ++ remove_chars is_unsafe query).
  { rewrite clean_https, !remove_chars_append, Hkh, Hkd, Hkn. reflexivity. }
  assert (Hsplit :
    split_path ("https://" ++ host ++ "/" ++ dir ++ "/" ++ name ++ "?" ++ query)
    = "/" ++ dir ++ "/" ++ name).
  { unfold split_path. rewrite Hclean.
    set (q := remove_chars is_unsafe query).
    change (strip_scheme ("https://" ++ host ++ "/" ++ dir ++ "/" ++ name
                          ++ "?" ++ q))
      with ("//" ++ host ++ "/" ++ dir ++ "/" ++ name ++ "?" ++ q).
    unfold startswith. rewrite (prefix_append "//").
    change (drop 2 ("//" ++ ?x)) with x.
    rewrite (until_delim_before host _ Hinside), drop_append.
    replace ("/" ++ dir ++ "/" ++ name ++ "?" ++ q)
      with (("/" ++ dir ++ "/" ++ name) ++ "?" ++ q)
      by (now rewrite !append_assoc).
    rewrite (until_char_clean "#" _ _ (Hpath "#"%char ltac:(tauto))).
    rewrite (until_char_clean "?" _ _ (Hpath "?"%char ltac:(tauto))).
    change ("?" ++ until_char "#" q) with (String "?" (until_char "#" q)).
    cbn [until_char Ascii.eqb Bool.eqb]. apply append_nil_r. }
  unfold extract_filename, path. rewrite Hsplit.
  rewrite (without_char_contains ";" "" _ (Hpath ";"%char ltac:(tauto))).
  rewrite andb_false_r.
  change ("/" ++ dir ++ "/" ++ name) with (("/" ++ dir) ++ "/" ++ name).
  rewrite basename_split
    by (apply without_char_contains, (Hn "/"%char); tauto).
  rewrite Hdot. apply String.eqb_neq in Hne. now rewrite Hne.
Qed.

End WithEnv.
End FilenameFacts.

(** ** The properties above on concrete runs *)

Module Runs.
Import Scenario Cases.
Import FetchFacts ToolFacts WorkspaceFacts CleanupFacts SplitMore HostFacts
  FilenameFacts.

Lemma direct_fetch_refused_witness :
  exists w',
    direct_fetch not_found MinimalHeaders "https://example.com/clip.mp4"
      "/tmp/video_bot/downloads/1700000000/clip.mp4" fresh
    = (w', Ok None)
    /\ files w' = files fresh /\ dirs w' = dirs fresh.
Proof.
  apply (direct_fetch_refused not_found MinimalHeaders
           "https://example.com/clip.mp4"
           "/tmp/video_bot/downloads/1700000000/clip.mp4" fresh).
  right. left. exists 404%Z, Absent, [[x01]], EndOfBody.
  split; [reflexivity | left; lia].
Defined.


Lemma download_with_yt_dlp_fallback_no_tools_witness :
  exists w',
    download_with_yt_dlp_fallback quiet "https://www.instagram.com/reel/abc/"
      "/tmp/video_bot/downloads/1700000000" fresh
    = (w', Ok None)
    /\ files w' = files fresh /\ dirs w' = dirs fresh.
Proof.
  apply (download_with_yt_dlp_fallback_no_tools quiet
           "https://www.instagram.com/reel/abc/"
           "/tmp/video_bot/downloads/1700000000" fresh).
  intros t. discriminate.
Defined.

Lemma by_tool_failed_run_witness :
  exists w',
    by_tool ytdlp_times_out YtDlp "https://youtu.be/abc"
      "/tmp/video_bot/downloads/1700000000" fresh
    = (w', Ok None)
    /\ (forall f,
          In f (tool_output ytdlp_times_out YtDlp "https://youtu.be/abc"
                  "/tmp/video_bot/downloads/1700000000") ->
          is_file (join "/tmp/video_bot/downloads/1700000000" (fst f)) w'
          = true)
    /\ forall q, is_file q fresh = true -> is_file q w' = true.
Proof.
  apply (by_tool_failed_run ytdlp_times_out YtDlp "https://youtu.be/abc"
           "/tmp/video_bot/downloads/1700000000" fresh).
  - reflexivity.
  - left. reflexivity.
Defined.

Lemma download_video_stays_in_workspace_witness :
  match download_video ytdlp_works bot "https://youtu.be/abc" "video.mp4"
          fresh with
  | (w', Ok p) =>
      exists name,
        p = join (join (downloads_dir bot) (str_int (now ytdlp_works))) name
        /\ contains "/" name = false
        /\ exists_ p w' = true
  | (_, Raise _) => True
  end.
Proof.
  apply (download_video_stays_in_workspace ytdlp_works bot
           "https://youtu.be/abc" "video.mp4" fresh).
  reflexivity.
Defined.



Lemma split_large_file_returns_files_witness :
  exists w' paths,
    split_large_file second_part_locked video MAX_FILE_SIZE downloaded
    = (w', Ok paths)
    /\ forall q, In q paths -> is_file q w' = true.
Proof.
  apply (split_large_file_returns_files second_part_locked video MAX_FILE_SIZE
           downloaded oversized).
  reflexivity.
Defined.

Lemma classification_reads_host_only_witness :
  (urlsplit_raises (lower ("https://" ++ "cdn.example.com" ++ "/"
                           ++ "youtube.com/v.mp4")) = false
   /\ get_platform_type ("https://" ++ "cdn.example.com" ++ "/"
                         ++ "youtube.com/v.mp4")
      = first_match platform_table (lower "cdn.example.com")
   /\ is_video_platform ("https://" ++ "cdn.example.com" ++ "/"
                         ++ "youtube.com/v.mp4")
      = existsb (fun platform => contains platform (lower "cdn.example.com"))
                video_platforms)
  /\ (urlsplit_raises (lower ("http://" ++ "cdn.example.com" ++ "/"
                              ++ "youtube.com/v.mp4")) = false
      /\ get_platform_type ("http://" ++ "cdn.example.com" ++ "/"
                            ++ "youtube.com/v.mp4")
         = first_match platform_table (lower "cdn.example.com")
      /\ is_video_platform ("http://" ++ "cdn.example.com" ++ "/"
                            ++ "youtube.com/v.mp4")
         = existsb (fun platform => contains platform (lower "cdn.example.com"))
                   video_platforms).
Proof.
  apply (classification_reads_host_only "cdn.example.com" "youtube.com/v.mp4").
  reflexivity.
Defined.

Lemma extract_filename_last_segment_witness :
  extract_filename quiet
    ("https://" ++ "cdn.example.com" ++ "/" ++ "media/2024" ++ "/"
     ++ "Clip.Final.MP4" ++ "?" ++ "token=a/b.c#t=10")
  = "Clip.Final.MP4".
Proof.
  apply (extract_filename_last_segment quiet "cdn.example.com" "media/2024"
           "Clip.Final.MP4" "token=a/b.c#t=10").
  - reflexivity.
  - reflexivity.
  - reflexivity.
  - discriminate.
  - reflexivity.
Defined.

End Runs.
